(** * Stream selection and download paths of the SoundCloud provider module

    A shallow embedding of [interface.py]: the two preset-string bitrate
    extractors, the transcoding scoring / filtering / ranking done by
    [get_track_info], and the two download paths of [get_track_download].

    Conventions.
    - Python [str] values are modelled by [string]; the text primitives
      ([lower], [upper], [isdigit], [\d]) are modelled on ASCII text, which
      is what SoundCloud preset strings, protocols and URLs consist of.
    - Python [int] is [Z]; the conversion [int(s)] fails, as in the
      interpreter, on a text of more than 4300 digits.
    - [CodecEnum] is declared by the host framework ([utils.models]) and is
      identified here with the names of its members; the set of member names
      is a parameter of the development. *)

From Stdlib Require Import String Ascii ZArith List Lia Bool Permutation Sorted.
From Stdlib Require Import DecimalString.
Import ListNotations.

Local Open Scope string_scope.
Local Open Scope Z_scope.

(** ** Python values that reach the extractors *)

Inductive pyval : Type :=
| PyNone : pyval
| PyInt : Z -> pyval
| PyStr : string -> pyval.

(** ** Text primitives *)

Module Text.

Definition is_digit (c : ascii) : bool :=
  let n := nat_of_ascii c in (48 <=? n)%nat && (n <=? 57)%nat.

Definition lower_char (c : ascii) : ascii :=
  let n := nat_of_ascii c in
  if (65 <=? n)%nat && (n <=? 90)%nat then ascii_of_nat (n + 32) else c.

Definition upper_char (c : ascii) : ascii :=
  let n := nat_of_ascii c in
  if (97 <=? n)%nat && (n <=? 122)%nat then ascii_of_nat (n - 32) else c.

Fixpoint map_chars (f : ascii -> ascii) (s : string) : string :=
  match s with
  | EmptyString => EmptyString
  | String c s' => String (f c) (map_chars f s')
  end.

(** [s.lower()] and [s.upper()] *)
Definition lower (s : string) : string := map_chars lower_char s.
Definition upper (s : string) : string := map_chars upper_char s.

(** [s.startswith(p)] *)
Fixpoint startswith (p s : string) : bool :=
  match p with
  | EmptyString => true
  | String a p' =>
      match s with
      | EmptyString => false
      | String b s' => Ascii.eqb a b && startswith p' s'
      end
  end.

(** [needle in hay] *)
Fixpoint contains (needle hay : string) : bool :=
  match hay with
  | EmptyString => startswith needle EmptyString
  | String _ hay' => startswith needle hay || contains needle hay'
  end.

Fixpoint drop (n : nat) (s : string) : string :=
  match n, s with
  | O, _ => s
  | S _, EmptyString => EmptyString
  | S n', String _ s' => drop n' s'
  end.

(** [s.split(sep)] for a one-character separator: never the empty list. *)
Fixpoint split (sep : ascii) (s : string) : list string :=
  match s with
  | EmptyString => [EmptyString]
  | String c s' =>
      if Ascii.eqb c sep then EmptyString :: split sep s'
      else match split sep s' with
           | [] => [String c EmptyString]
           | p :: ps => String c p :: ps
           end
  end.

Fixpoint all_digits (s : string) : bool :=
  match s with
  | EmptyString => true
  | String c s' => is_digit c && all_digits s'
  end.

(** [s.isdigit()]: at least one character, all of them digits. *)
Definition isdigit (s : string) : bool :=
  match s with
  | EmptyString => false
  | String _ _ => all_digits s
  end.

Definition digit_value (c : ascii) : Z := Z.of_nat (nat_of_ascii c) - 48.

Fixpoint digits_value (acc : Z) (s : string) : Z :=
  match s with
  | EmptyString => acc
  | String c s' => digits_value (10 * acc + digit_value c) s'
  end.

(** The interpreter's limit on the number of digits [int] converts
    ([sys.get_int_max_str_digits()], by default). *)
Definition max_str_digits : Z := 4300.

Definition within_digit_limit (digits : nat) : bool :=
  Z.of_nat digits <=? max_str_digits.

(** [int(s)] on the strings the module hands to it (digit runs); [None]
    stands for [ValueError], which a run of more digits than the limit
    raises as well. *)
Definition int (s : string) : option Z :=
  if isdigit s && within_digit_limit (String.length s)
  then Some (digits_value 0 s) else None.

(** The longest run of digits at the head of [s], and what follows it. *)
Fixpoint span_digits (s : string) : string * string :=
  match s with
  | EmptyString => (EmptyString, EmptyString)
  | String c s' =>
      if is_digit c
      then let (ds, rest) := span_digits s' in (String c ds, rest)
      else (EmptyString, s)
  end.

(** [re.match(r'(\d+)k', s)]: group 1 of a match anchored at the head of
    [s].  [\d+] is greedy and a shorter run of digits is followed by a
    digit, so the only run that can be followed by [k] is the longest one. *)
Definition match_digits_k (s : string) : option string :=
  match span_digits s with
  | (String d ds, String "k" _) => Some (String d ds)
  | _ => None
  end.

(** [re.search(r'(\d+)k', s)]: group 1 of the leftmost match. *)
Fixpoint search_digits_k (s : string) : option string :=
  match s with
  | EmptyString => None
  | String _ s' =>
      match match_digits_k s with
      | Some g => Some g
      | None => search_digits_k s'
      end
  end.

(** [re.search(r'aac_(\d+)k', s)]: group 1 of the leftmost match. *)
Fixpoint search_aac_digits_k (s : string) : option string :=
  match s with
  | EmptyString => None
  | String _ s' =>
      match (if startswith "aac_" s then match_digits_k (drop 4 s) else None) with
      | Some g => Some g
      | None => search_aac_digits_k s'
      end
  end.

(** [s.replace(old, new)] for a non-empty [old]: the occurrences are taken
    from the left and do not overlap; [skip] counts the characters of the
    occurrence just replaced that are still to be passed over. *)
Fixpoint replace_from (old new : string) (skip : nat) (s : string) : string :=
  match s with
  | EmptyString => EmptyString
  | String c s' =>
      match skip with
      | S k => replace_from old new k s'
      | O =>
          if startswith old s
          then new ++ replace_from old new (String.length old - 1) s'
          else String c (replace_from old new O s')
      end
  end.

Definition replace (old new s : string) : string := replace_from old new O s.

(** [s.split(sep)] for a non-empty separator of any length. *)
Fixpoint split_from (sep : string) (skip : nat) (s : string) : list string :=
  match s with
  | EmptyString => [EmptyString]
  | String c s' =>
      match skip with
      | S k => split_from sep k s'
      | O =>
          if startswith sep s
          then EmptyString :: split_from sep (String.length sep - 1) s'
          else match split_from sep O s' with
               | [] => [String c EmptyString]
               | p :: ps => String c p :: ps
               end
      end
  end.

Definition split_str (sep s : string) : list string := split_from sep O s.

(** [str(n)] for an integer *)
Definition of_int (n : Z) : string := NilZero.string_of_int (Z.to_int n).

(** [sep.join(parts)] *)
Fixpoint join (sep : string) (parts : list string) : string :=
  match parts with
  | [] => EmptyString
  | p :: ps =>
      match ps with
      | [] => p
      | _ :: _ => p ++ sep ++ join sep ps
      end
  end.

(** The white space [int()] strips from an ASCII text: tab, line feed,
    vertical tab, form feed, carriage return and space. *)
Definition is_space (c : ascii) : bool :=
  let n := nat_of_ascii c in
  ((9 <=? n)%nat && (n <=? 13)%nat) || (n =? 32)%nat.

Fixpoint lstrip (s : string) : string :=
  match s with
  | EmptyString => EmptyString
  | String c s' => if is_space c then lstrip s' else s
  end.

Fixpoint rstrip (s : string) : string :=
  match s with
  | EmptyString => EmptyString
  | String c s' =>
      match rstrip s' with
      | EmptyString => if is_space c then EmptyString else String c EmptyString
      | r => String c r
      end
  end.

(** The text between the white space [int()] strips. *)
Definition strip (s : string) : string := rstrip (lstrip s).

(** The number of digits in a text. *)
Fixpoint count_digits (s : string) : nat :=
  match s with
  | EmptyString => O
  | String c s' => if is_digit c then S (count_digits s') else count_digits s'
  end.

(** The digits of a decimal literal, single underscores allowed between
    digits; [prev_digit] tells whether the character just read was a
    digit. *)
Fixpoint literal_digits (prev_digit : bool) (acc : Z) (s : string) : option Z :=
  match s with
  | EmptyString => if prev_digit then Some acc else None
  | String c s' =>
      if is_digit c then literal_digits true (10 * acc + digit_value c) s'
      else if Ascii.eqb c "_" && prev_digit then literal_digits false acc s'
      else None
  end.

(** [int(s)] for any ASCII text: white space around, an optional sign,
    decimal digits, no more of them than the limit; [None] stands for
    [ValueError]. *)
Definition int_literal (s : string) : option Z :=
  let body := strip s in
  if within_digit_limit (count_digits body) then
    match body with
    | String c r =>
        if Ascii.eqb c "+" then literal_digits false 0 r
        else if Ascii.eqb c "-" then option_map Z.opp (literal_digits false 0 r)
        else literal_digits false 0 (String c r)
    | EmptyString => None
    end
  else None.

End Text.

(** ** The bitrate extractors *)

(** [int(match_kbps.group(1))] guarded by [if match_kbps] *)
Definition group_int (m : option string) : option Z :=
  match m with
  | Some g => Text.int g
  | None => None
  end.

Definition _parse_aac_bitrate_from_preset (preset_string : pyval) : Z :=
  match preset_string with
  | PyStr s =>
      match Text.search_aac_digits_k s with
      | Some g =>
          match Text.int g with
          | Some n => n
          | None => 0
          end
      | None => if Text.startswith "aac_" s then 64 else 0
      end
  | _ => 0
  end.

(** [len(parts) > 1 and parts[1].isdigit()] *)
Definition second_part_isdigit (parts : list string) : bool :=
  (1 <? length parts)%nat && Text.isdigit (nth 1 parts EmptyString).

Definition _parse_progressive_bitrate_from_preset
    (preset_string : pyval) (stream_codec_name : string) : Z :=
  match preset_string with
  | PyStr s =>
      if String.eqb stream_codec_name "OPUS" && Text.contains "abr_hq" s then 128
      else if String.eqb stream_codec_name "OPUS" && Text.contains "abr_sq" s then 96
      else
        match group_int (Text.search_digits_k s) with
        | Some n => n
        | None =>
            let parts := Text.split "_" s in
            match (if second_part_isdigit parts
                   then Text.int (nth 1 parts EmptyString) else None) with
            | Some n => n
            | None =>
                if String.eqb stream_codec_name "OPUS"
                   && (1 <? length parts)%nat
                   && String.eqb (nth 0 parts EmptyString) "opus"
                   && Text.isdigit (nth 1 parts EmptyString)
                then match Text.int (nth 1 parts EmptyString) with
                     | Some quality_level => quality_level * 12 + 32
                     | None => 0
                     end
                else 0
            end
        end
  | _ => 0
  end.


(** ** Stream selection in [get_track_info] *)

(** One entry of [track_data['media']['transcodings']]: [i['url']] (a
    string, or [None]), [i['format']['protocol']] and [i['preset']]. *)
Record transcoding : Type := {
  tr_url : option string;
  tr_protocol : string;
  tr_preset : string
}.

(** One dictionary appended to [available_streams]; [codec] is the name of
    the [CodecEnum] member. *)
Record stream : Type := {
  url : string;
  codec : string;
  is_hls : bool;
  is_encrypted : bool;
  quality : Z;
  preference : Z;
  preset : string
}.

(** The fields of the track description that decide the selection. *)
Record track_data : Type := {
  downloadable : bool;
  has_downloads_left : bool;
  streamable : bool;
  transcodings : list transcoding
}.

(** The locals of [get_track_info] that the returned [TrackInfo] is built
    from: [codec] and [error], and the [download_extra_kwargs] entries
    [track_url], [download_url] and [is_hls]. *)
Record selection : Type := {
  file_url : option string;
  download_url : option string;
  final_codec : string;
  error : option string;
  final_is_hls_stream : bool
}.

(** The [codec_preference] dictionary, read with [.get(key, 0)]. *)
Definition codec_preference (c : string) (hls : bool) : Z :=
  if String.eqb c "AAC" && hls then 5
  else if String.eqb c "OPUS" && hls then 4
  else if String.eqb c "OPUS" && negb hls then 3
  else if String.eqb c "AAC" && negb hls then 2
  else if String.eqb c "MP3" && negb hls then 1
  else if String.eqb c "MP3" && hls then 0
  else 0.

(** [isinstance(u, str) and any(m in u.lower() for m in markers)] *)
Definition url_has_marker (u : option string) (markers : list string) : bool :=
  match u with
  | Some s => existsb (fun m => Text.contains m (Text.lower s)) markers
  | None => false
  end.

Definition hls_markers : list string :=
  ["/hls"; ".m3u8"; "ctr-encrypted-hls"; "cbc-encrypted-hls"].

Definition encrypted_markers : list string :=
  ["ctr-encrypted-hls"; "cbc-encrypted-hls"].

(** [preset_parts[0].upper() if preset_parts else ''] *)
Definition stream_codec_name_of (preset_string : string) : string :=
  match Text.split "_" preset_string with
  | p :: _ => Text.upper p
  | [] => EmptyString
  end.

Definition is_hls_of (i : transcoding) : bool :=
  String.eqb (tr_protocol i) "hls" || url_has_marker (tr_url i) hls_markers.

Definition is_encrypted_hls_of (i : transcoding) : bool :=
  is_hls_of i && url_has_marker (tr_url i) encrypted_markers.

(** The [quality_score] of a transcoding whose codec name is recognised. *)
Definition quality_score_of (i : transcoding) : Z :=
  let stream_codec_name := stream_codec_name_of (tr_preset i) in
  if is_encrypted_hls_of i then -100
  else if is_hls_of i then
    if String.eqb stream_codec_name "AAC"
    then _parse_aac_bitrate_from_preset (PyStr (tr_preset i))
    else _parse_progressive_bitrate_from_preset (PyStr (tr_preset i)) stream_codec_name
  else _parse_progressive_bitrate_from_preset (PyStr (tr_preset i)) stream_codec_name.

(** Truth value of [i['url']]. *)
Definition url_truthy (u : option string) : bool :=
  match u with
  | Some s => negb (String.eqb s EmptyString)
  | None => false
  end.

(** Stable sort on the key [(quality, preference)], largest first, as
    [list.sort(key=..., reverse=True)] does: elements with equal keys keep
    their original order. *)
Definition sort_key (x : stream) : Z * Z := (quality x, preference x).

(** Comparison of the key tuples: [a < b]. *)
Definition key_ltb (a b : Z * Z) : bool :=
  (fst a <? fst b) || ((fst a =? fst b) && (snd a <? snd b)).

Fixpoint insert_desc (x : stream) (l : list stream) : list stream :=
  match l with
  | [] => [x]
  | y :: l' =>
      if key_ltb (sort_key x) (sort_key y) then y :: insert_desc x l'
      else x :: y :: l'
  end.

Definition sort_desc (l : list stream) : list stream :=
  fold_right insert_desc [] l.

Definition DRM_error : string :=
  "Track is available as a DRM-protected HLS stream, which can be downloaded, but aren't playable without decryption key. Skipping.".

Definition none_usable_error : string :=
  "No stream transcodings found or none were usable.".

Definition no_transcodings_error : string :=
  "No stream transcodings available for this track.".

Definition not_available_error : string :=
  "Track is not available for download or streaming.".

Definition low_quality_error (preset_string : string) : string :=
  "Best stream found (preset: " ++ preset_string
  ++ ") has zero or negative quality, or codec could not be parsed.".

Definition unknown_codec_error (content_type_header : string) : string :=
  "Unknown codec from direct download Content-Type: " ++ content_type_header.

(** [content_type_header.split('/')[-1]] *)
Definition codec_str_part_of (content_type_header : string) : string :=
  last (Text.split "/" content_type_header) EmptyString.

Definition codec_str_of (content_type_header : string) : string :=
  Text.upper
    (Text.replace "ogg" "vorbis"
       (Text.replace "mpeg" "mp3" (codec_str_part_of content_type_header))).

Section GetTrackInfo.

(** [name in CodecEnum.__members__]; [CodecEnum] itself is declared in the
    host's [utils.models]. *)
Variable CodecEnum_members : string -> bool.

(** The body of the loop over the transcodings: the dictionary appended to
    [available_streams], if any. *)
Definition stream_of_transcoding (i : transcoding) : option stream :=
  let preset_string := tr_preset i in
  let stream_codec_name := stream_codec_name_of preset_string in
  if CodecEnum_members stream_codec_name then
    let current_codec_enum := stream_codec_name in
    let is_hls := is_hls_of i in
    let is_encrypted_hls := is_encrypted_hls_of i in
    let quality_score := quality_score_of i in
    match tr_url i with
    | Some u =>
        if url_truthy (tr_url i) && (0 <=? quality_score) then
          Some {| url := u;
                  codec := current_codec_enum;
                  is_hls := is_hls;
                  is_encrypted := is_encrypted_hls;
                  quality := quality_score;
                  preference := codec_preference current_codec_enum is_hls;
                  preset := preset_string |}
        else None
    | None => None
    end
  else None.

Fixpoint available_streams (ts : list transcoding) : list stream :=
  match ts with
  | [] => []
  | i :: ts' =>
      match stream_of_transcoding i with
      | Some s => s :: available_streams ts'
      | None => available_streams ts'
      end
  end.

(** [available_streams[0]] after the sort, when the list is not empty. *)
Definition best_stream (ts : list transcoding) : option stream :=
  match sort_desc (available_streams ts) with
  | [] => None
  | b :: _ => Some b
  end.

(** [get_track_info]: [redirectUri] is what the download endpoint answers
    and [content_type_header] the [Content-Type] of the asset (the empty
    string when the header is absent); both are read on the direct path
    only. *)
Definition get_track_info (td : track_data)
    (redirectUri content_type_header : string) : selection :=
  if downloadable td && has_downloads_left td then
    let codec_str := codec_str_of content_type_header in
    if CodecEnum_members codec_str then
      {| file_url := Some redirectUri; download_url := Some redirectUri;
         final_codec := codec_str; error := None;
         final_is_hls_stream := false |}
    else
      {| file_url := Some redirectUri; download_url := Some redirectUri;
         final_codec := "AAC";
         error := Some (unknown_codec_error content_type_header);
         final_is_hls_stream := false |}
  else if streamable td then
    match transcodings td with
    | _ :: _ =>
        match best_stream (transcodings td) with
        | Some best =>
            {| file_url := Some (url best); download_url := None;
               final_codec := codec best;
               error :=
                 if is_encrypted best then Some DRM_error
                 else if 0 <? quality best then None
                 else Some (low_quality_error (preset best));
               final_is_hls_stream := is_hls best |}
        | None =>
            {| file_url := None; download_url := None; final_codec := "AAC";
               error := Some none_usable_error;
               final_is_hls_stream := false |}
        end
    | [] =>
        {| file_url := None; download_url := None; final_codec := "AAC";
           error := Some no_transcodings_error;
           final_is_hls_stream := false |}
    end
  else
    {| file_url := None; download_url := None; final_codec := "AAC";
       error := Some not_available_error;
       final_is_hls_stream := false |}.

End GetTrackInfo.

(** ** [get_track_download]

    The function talks to the network, to the file system and to the
    external media tool.  Their answers are gathered in an environment
    [env]; what the function does to them is recorded in a [world] that is
    threaded through the calls, and an exception is an outcome of its own. *)

Inductive exn : Type :=
| ModuleError (msg : string)                 (* [self.exception(msg)] *)
| FfmpegError (stderr msg : string)          (* [ffmpeg.Error] *)
| ImportError (msg : string)
| KeyError (msg : string)
| OtherError (msg : string).                 (* any other [Exception] *)

(** [str(e)] *)
Definition exn_str (e : exn) : string :=
  match e with
  | ModuleError msg => msg
  | FfmpegError _ msg => msg
  | ImportError msg => msg
  | KeyError msg => msg
  | OtherError msg => msg
  end.

Inductive result (A : Type) : Type :=
| Returned (a : A)
| Raised (e : exn).

Arguments Returned {A} a.
Arguments Raised {A} e.

(** [str(v)] inside an f-string *)
Definition py_str (v : pyval) : string :=
  match v with
  | PyNone => "None"
  | PyInt n => Text.of_int n
  | PyStr s => s
  end.

(** The [TrackDownloadInfo] the host receives. *)
Inductive TrackDownloadInfo : Type :=
| TEMP_FILE_PATH (temp_file_path : string)
| URL (file_url : pyval) (file_url_headers : list (string * string)).

(** How a launch of the media tool ends. *)
Inductive tool_end : Type :=
| Exit (returncode : Z) (err : string)
| Thrown (e : exn).

Record tool_run : Type := {
  wrote_output : bool;       (* the output file exists afterwards *)
  ending : tool_end
}.

Record env : Type := {
  access_token : string;
  (* [websession._get(path, params)['url']] *)
  api_get_url : string -> string -> result pyval;
  (* the n-th answer of [create_temp_filename()] *)
  temp_filename : nat -> string;
  (* [download_to_temp(url, headers, extension)] *)
  download_answer : pyval -> string -> result string;
  (* [codec_data[codec].container.name], [None] when [codec not in codec_data] *)
  container_name : string -> option string;
  (* whether [import ffmpeg] succeeds *)
  ffmpeg_importable : bool;
  (* the media tool on an input and an output location *)
  tool : pyval -> string -> tool_run
}.

Record world : Type := {
  files : list string;        (* temporary files on disk *)
  stdout : list string;       (* lines printed, oldest first *)
  tool_launches : nat;        (* launches of the media tool *)
  fetched : list pyval;       (* URLs downloaded to local storage *)
  temp_names : nat            (* names handed out by [create_temp_filename] *)
}.

Definition M (A : Type) : Type := world -> result A * world.

Definition ret {A : Type} (a : A) : M A := fun w => (Returned a, w).

Definition bind {A B : Type} (m : M A) (k : A -> M B) : M B :=
  fun w =>
    match m w with
    | (Returned a, w') => k a w'
    | (Raised e, w') => (Raised e, w')
    end.

Definition raise {A : Type} (e : exn) : M A := fun w => (Raised e, w).

(** [try: m  except Exception as e: h e] *)
Definition try_except {A : Type} (m : M A) (h : exn -> M A) : M A :=
  fun w =>
    match m w with
    | (Returned a, w') => (Returned a, w')
    | (Raised e, w') => h e w'
    end.

Declare Scope m_scope.
Delimit Scope m_scope with M.
Notation "x <- m ;; k" := (bind m (fun x => k))
  (at level 61, m at next level, right associativity) : m_scope.
Notation "m ;;; k" := (bind m (fun _ => k))
  (at level 61, right associativity) : m_scope.

Definition remove_file (path : string) (fs : list string) : list string :=
  filter (fun f => negb (String.eqb f path)) fs.

(** Modelled from the spec: [silentremove] is a helper of the host
    ([utils.utils]); it deletes the file, silently when there is none. *)
Definition silentremove (path : string) : M unit :=
  fun w =>
    (Returned tt,
     {| files := remove_file path (files w); stdout := stdout w;
        tool_launches := tool_launches w; fetched := fetched w;
        temp_names := temp_names w |}).

Definition print (line : string) : M unit :=
  fun w =>
    (Returned tt,
     {| files := files w; stdout := stdout w ++ [line];
        tool_launches := tool_launches w; fetched := fetched w;
        temp_names := temp_names w |}).

(** Modelled from the spec: [create_temp_filename] is a helper of the host
    ([utils.utils]); it hands out a name and creates no file. *)
Definition create_temp_filename (E : env) : M string :=
  fun w =>
    (Returned (temp_filename E (temp_names w)),
     {| files := files w; stdout := stdout w;
        tool_launches := tool_launches w; fetched := fetched w;
        temp_names := S (temp_names w) |}).

(** Modelled from the spec: [download_to_temp] is a helper of the host
    ([utils.utils]); it fetches the URL into a temporary file and returns
    its path, or raises. *)
Definition download_to_temp (E : env) (u : pyval) (extension : string) : M string :=
  fun w =>
    match download_answer E u extension with
    | Returned path =>
        (Returned path,
         {| files := path :: files w; stdout := stdout w;
            tool_launches := tool_launches w; fetched := fetched w ++ [u];
            temp_names := temp_names w |})
    | Raised e =>
        (Raised e,
         {| files := files w; stdout := stdout w;
            tool_launches := tool_launches w; fetched := fetched w ++ [u];
            temp_names := temp_names w |})
    end.

(** [_get_ffmpeg()] *)
Definition _get_ffmpeg (E : env) : M unit :=
  if ffmpeg_importable E then ret tt
  else raise (ImportError "No module named 'ffmpeg'").

(** Modelled from the spec: the media tool is external.  One launch of
    it: counted, and the output file is there afterwards when the tool
    wrote it. *)
Definition launch (E : env) (input : pyval) (output : string) : M tool_end :=
  fun w =>
    let r := tool E input output in
    (Returned (ending r),
     {| files := if wrote_output r then output :: files w else files w;
        stdout := stdout w; tool_launches := S (tool_launches w);
        fetched := fetched w; temp_names := temp_names w |}).

(** [ffmpeg.input(..).output(..).run_async(..)] and [process.communicate()]:
    the return code and the captured error text. *)
Definition run_async_communicate (E : env) (input : pyval) (output : string)
  : M (Z * string) :=
  (r <- launch E input output ;;
   match r with
   | Exit returncode err => ret (returncode, err)
   | Thrown e => raise e
   end)%M.

(** [ffmpeg.input(..).output(..).run()]: raises [ffmpeg.Error] on a
    non-zero return code. *)
Definition run (E : env) (input : pyval) (output : string) : M unit :=
  (r <- launch E input output ;;
   match r with
   | Exit returncode err =>
       if returncode =? 0 then ret tt
       else raise (FfmpegError err "ffmpeg error (see stderr output for detail)")
   | Thrown e => raise e
   end)%M.

Definition api_base : string := "https://api-v2.soundcloud.com/".

(** [SoundCloudWebAPI.get_track_stream_link] *)
Definition get_track_stream_link (E : env) (file_url : option string)
    (track_authorization : string) : M pyval :=
  match file_url with
  | Some u =>
      if String.eqb u EmptyString then
        raise (ModuleError "Stream URL is missing. This track may not be available for streaming or download in your region.")
      else if negb (Text.contains api_base u) then
        raise (ModuleError "Invalid stream URL. This track may not be available.")
      else
        fun w => (api_get_url E (nth 1 (Text.split_str api_base u) EmptyString)
                    track_authorization, w)
  | None =>
      raise (ModuleError "Stream URL is missing. This track may not be available for streaming or download in your region.")
  end.

Definition download_markers : list string :=
  ["/hls"; ".m3u8"; "ctr-encrypted-hls"].

(** The check made on the resolved playlist URL. *)
Definition valid_m3u8 (v : pyval) : bool :=
  match v with
  | PyStr s => negb (String.eqb s EmptyString) && Text.startswith "http" s
  | _ => false
  end.

Definition auth_header (E : env) : list (string * string) :=
  [("Authorization", "OAuth " ++ access_token E)].

(** The [is_hls] branch. *)
Definition hls_download (E : env) (track_url : option string) (codec : string)
    (track_authorization : string) : M TrackDownloadInfo :=
  (if negb (url_truthy track_url) then
     raise (ModuleError "HLS stream URL not found in get_track_download (is_hls path)")
   else
     m3u8_url_resolved <-
       try_except
         (m <- get_track_stream_link E track_url track_authorization ;;
          if valid_m3u8 m then ret m
          else raise (ModuleError
                 ("HLS_INVALID_M3U8_URL: Resolved M3U8 URL is invalid: " ++ py_str m)))
         (fun e => raise (ModuleError
                 ("HLS_M3U8_RESOLUTION_ERROR: Failed to resolve M3U8 stream link: "
                  ++ exn_str e))) ;;
     let extension :=
       match container_name E codec with Some n => n | None => "m4a" end in
     name <- create_temp_filename E ;;
     let output_location := name ++ "." ++ extension in
     try_except
       (_get_ffmpeg E ;;;
        p <- run_async_communicate E m3u8_url_resolved output_location ;;
        let (returncode, err) := p in
        if negb (returncode =? 0) then
          silentremove output_location ;;;
          let stderr_output :=
            if String.eqb err EmptyString then "No stderr from process" else err in
          raise (ModuleError
                   ("HLS_DOWNLOAD_FFMPEG_ERROR: FFmpeg process failed (RC: "
                    ++ Text.of_int returncode ++ "). Stderr: " ++ stderr_output))
        else ret tt)
       (fun e =>
          (* the first [except] clause evaluates [_get_ffmpeg().Error] *)
          _get_ffmpeg E ;;;
          match e with
          | FfmpegError stderr msg =>
              silentremove output_location ;;;
              let stderr_log :=
                if String.eqb stderr EmptyString
                then "No direct stderr from ffmpeg.Error object" else stderr in
              raise (ModuleError
                       ("HLS_FFMPEG_LIB_ERROR: " ++ stderr_log
                        ++ ". Original error: " ++ msg))
          | _ =>
              silentremove output_location ;;;
              raise (ModuleError
                       ("HLS_UNEXPECTED_ERROR_IN_TRY_BLOCK: " ++ exn_str e))
          end) ;;;
     ret (TEMP_FILE_PATH output_location))%M.

(** The rest of the function: direct and progressive streams. *)
Definition resolve_stream_url (E : env) (track_url download_url : option string)
    (track_authorization : string) : M pyval :=
  match download_url with
  | Some d =>
      if String.eqb d EmptyString
      then get_track_stream_link E track_url track_authorization
      else ret (PyStr d)
  | None => get_track_stream_link E track_url track_authorization
  end.

Definition non_hls_download (E : env) (track_url download_url : option string)
    (codec : string) (track_authorization : string) : M TrackDownloadInfo :=
  (let auth_header_non_hls := auth_header E in
   resolved_stream_url <-
     resolve_stream_url E track_url download_url track_authorization ;;
   if String.eqb codec "AAC" then
     match container_name E codec with
     | None => raise (KeyError "CodecEnum.AAC")
     | Some extension =>
         temp_location <- download_to_temp E resolved_stream_url extension ;;
         name <- create_temp_filename E ;;
         let output_location := name ++ "." ++ extension in
         output_location' <-
           try_except
             (_get_ffmpeg E ;;;
              run E (PyStr temp_location) output_location ;;;
              silentremove temp_location ;;;
              ret output_location)
             (fun e =>
                silentremove output_location ;;;
                print ("FFmpeg is not installed or working properly for AAC remux! Error: "
                       ++ exn_str e ++ ". Using fallback, may have errors.") ;;;
                ret temp_location) ;;
         ret (TEMP_FILE_PATH output_location')
     end
   else ret (URL resolved_stream_url auth_header_non_hls))%M.

(** [determined_is_hls]: [kwargs.get('is_hls') is True], or a marker in the URL. *)
Definition download_is_hls (track_url : option string) (kwargs_is_hls : option bool) : bool :=
  match kwargs_is_hls with
  | Some true => true
  | _ => url_has_marker track_url download_markers
  end.

Definition get_track_download (E : env) (track_url download_url : option string)
    (codec : string) (track_authorization : string) (kwargs_is_hls : option bool)
  : M TrackDownloadInfo :=
  let is_hls := download_is_hls track_url kwargs_is_hls in
  if is_hls then hls_download E track_url codec track_authorization
  else non_hls_download E track_url download_url codec track_authorization.

(** The remux of the AAC path goes through: the module imports, the tool
    exits with code 0. *)
Definition remux_ok (E : env) (input : pyval) (output : string) : bool :=
  ffmpeg_importable E &&
  match ending (tool E input output) with
  | Exit returncode _ => returncode =? 0
  | Thrown _ => false
  end.

(** A launch of the tool that did not succeed: non-zero return code, or an
    exception. *)
Definition tool_failed (r : tool_end) : bool :=
  match r with
  | Exit returncode _ => negb (returncode =? 0)
  | Thrown _ => true
  end.

(** The [output_location] of the HLS branch and of the AAC branch, for the
    world the call starts in. *)
Definition hls_output_location (E : env) (codec : string) (w : world) : string :=
  temp_filename E (temp_names w) ++ "."
  ++ match container_name E codec with Some n => n | None => "m4a" end.

Definition aac_output_location (E : env) (extension : string) (w : world) : string :=
  temp_filename E (temp_names w) ++ "." ++ extension.

(** ** Metadata helpers of [interface.py] *)

(** A field read as [key in data and data[key]]: the text when the key is
    there with a non-empty string, nothing otherwise. *)
Definition field_text (v : option string) : string :=
  match v with
  | Some s => s
  | None => EmptyString
  end.

(** [get_release_year]; the arguments are [data['release_date']],
    [data['display_date']] and [data['created_at']], [None] when the key is
    absent or holds [None]; the result [None] stands for the [ValueError] of
    [int]. *)
Definition get_release_year (release_date display_date created_at : option string)
  : option Z :=
  let chosen :=
    if url_truthy release_date then field_text release_date
    else if url_truthy display_date then field_text display_date
    else if url_truthy created_at then field_text created_at
    else EmptyString in
  Text.int_literal (hd EmptyString (Text.split "-" chosen)).

(** The [name] of the [TrackInfo]:
    [title.split(' - ')[1] if ' - ' in title else title]; [None] stands for
    [IndexError]. *)
Definition track_name (title : string) : option string :=
  if Text.contains " - " title
  then nth_error (Text.split_str " - " title) 1
  else Some title.

(** [self.artists_split] *)
Definition artists_split (artists_string : string) : list string :=
  Text.split_str ", "
    (Text.replace " x " ", "
       (Text.replace " and " ", "
          (Text.replace " & " ", " artists_string))).

(** ** The API client ([soundcloud_api.py]) *)

(** Parsed JSON. *)
#[local] Unset Elimination Schemes.
Inductive json : Type :=
| JNull : json
| JBool : bool -> json
| JNum : Z -> json
| JStr : string -> json
| JList : list json -> json
| JDict : list (string * json) -> json.
#[local] Set Elimination Schemes.

(** [d.get(key)] on a dictionary with distinct keys. *)
Fixpoint dict_get (d : list (string * json)) (key : string) : option json :=
  match d with
  | [] => None
  | (k, v) :: d' => if String.eqb k key then Some v else dict_get d' key
  end.

(** Truth value of a JSON value. *)
Definition json_truthy (j : json) : bool :=
  match j with
  | JNull => false
  | JBool b => b
  | JNum n => negb (n =? 0)
  | JStr s => negb (String.eqb s EmptyString)
  | JList l => match l with [] => false | _ :: _ => true end
  | JDict d => match d with [] => false | _ :: _ => true end
  end.

Record response : Type := {
  status_code : Z;
  text : string;
  json_body : option json        (* [r.json()], [None] when it raises *)
}.

(** The HTTP session: the answer to the n-th request, for a URL and its
    query parameters; [Raised] is a failure of the transport. *)
Record session : Type := {
  http_get : nat -> string -> list (string * pyval) -> result response
}.

Definition is_absolute (u : string) : bool :=
  Text.startswith "http://" u || Text.startswith "https://" u.

Definition not_available_message : string :=
  "This track is not available (e.g. restricted in your country or disabled for API access).".

(** [SoundCloudWebAPI._get]; [n] counts the requests made so far. *)
Definition _get (S : session) (u : string) (params : list (string * pyval)) (n : nat)
  : result json * nat :=
  let answer :=
    if is_absolute u then http_get S n u []
    else http_get S n (api_base ++ u) params in
  match answer with
  | Raised e => (Raised e, Datatypes.S n)
  | Returned r =>
      if (status_code r =? 200) || (status_code r =? 201) || (status_code r =? 202)
      then match json_body r with
           | Some j => (Returned j, Datatypes.S n)
           | None => (Raised (OtherError "JSONDecodeError"), Datatypes.S n)
           end
      else if status_code r =? 403
      then (Raised (ModuleError not_available_message), Datatypes.S n)
      else (Raised (ModuleError (Text.of_int (status_code r) ++ ": " ++ text r)),
            Datatypes.S n)
  end.

(** [isinstance(i, dict) and 'id' in i] *)
Definition has_id (i : json) : bool :=
  match i with
  | JDict d => match dict_get d "id" with Some _ => true | None => false end
  | _ => false
  end.

(** What [for i in collection] goes through; [None] stands for the
    [TypeError] of a value that cannot be iterated. *)
Definition iterate (collection : json) : option (list json) :=
  match collection with
  | JList l => Some l
  | JStr s => Some (map (fun c => JStr (String c EmptyString)) (list_ascii_of_string s))
  | JDict d => Some (map (fun kv => JStr (fst kv)) d)
  | _ => None
  end.

(** [collection] and [next_href] as read off a response. *)
Definition page_collection (resp : json) : json :=
  match resp with
  | JList _ => resp
  | JDict d =>
      match dict_get d "collection" with
      | Some c => c
      | None => JList []
      end
  | _ => JList []
  end.

Definition page_next_href (resp : json) : json :=
  match resp with
  | JDict d =>
      match dict_get d "next_href" with
      | Some h => h
      | None => JNull
      end
  | _ => JNull
  end.

(** The loop of [_get_collection_paginated]: [pages] iterations are left,
    [page_url] and [page_params] are the loop variables. *)
Fixpoint paginate (S : session) (pages : nat) (page_url : json)
    (page_params : list (string * pyval)) (all_items : list json) (n : nat)
  : result (list json) * nat :=
  match pages with
  | O => (Returned all_items, n)
  | Datatypes.S pages' =>
      match page_url with
      | JStr u =>
          let page_params' := if is_absolute u then [] else page_params in
          match _get S u page_params' n with
          | (Raised e, n') => (Raised e, n')
          | (Returned resp, n') =>
              let collection := page_collection resp in
              let next_href := page_next_href resp in
              match iterate collection with
              | None => (Raised (OtherError "TypeError"), n')
              | Some items =>
                  let all_items' := (all_items ++ filter has_id items)%list in
                  if json_truthy next_href
                  then paginate S pages' next_href page_params' all_items' n'
                  else (Returned all_items', n')
              end
          end
      | _ => (Raised (OtherError "AttributeError"), n)
      end
  end.

Definition _get_collection_paginated (S : session) (u : string)
    (params : list (string * pyval)) (max_pages : nat) (n : nat)
  : result (list json) * nat :=
  paginate S max_pages (JStr u) params [] n.

(** [range(0, stop, step)] for a positive step. *)
Definition range_from_zero (stop step : nat) : list nat :=
  map (fun k => (k * step)%nat) (seq 0 ((stop + step - 1) / step)).

(** [l[i:j]] for [0 <= i <= j] *)
Definition slice {A : Type} (l : list A) (i j : nat) : list A :=
  firstn (j - i) (skipn i l).

(** [tracks_to_get_chunked] of [get_tracks_from_tracklist] *)
Definition tracks_to_get_chunked {A : Type} (tracks_to_get : list A) : list (list A) :=
  map (fun i => slice tracks_to_get i (i + 50))
      (range_from_zero (length tracks_to_get) 50).

(** One entry of the transcodings as [get_preview_stream_url] reads it:
    [transcoding.get('url', '')] and
    [transcoding.get('format', {}).get('protocol', '')], or an entry on
    which these reads raise. *)
Inductive preview_item : Type :=
| Item (item_url : pyval) (item_protocol : pyval)
| Malformed (e : exn).

(** The track description as [get_preview_stream_url] reads it. *)
Record preview_data : Type := {
  pv_streamable : bool;                          (* truth of [.get('streamable')] *)
  pv_transcodings : result (list preview_item);  (* the transcodings, or the
                                                    exception of reading them *)
  pv_track_authorization : string
}.

(** The URL argument as [get_track_stream_link] tests it: a string, or not. *)
Definition as_url (v : pyval) : option string :=
  match v with
  | PyStr s => Some s
  | _ => None
  end.

Definition pyval_truthy (v : pyval) : bool :=
  match v with
  | PyNone => false
  | PyInt n => negb (n =? 0)
  | PyStr s => negb (String.eqb s EmptyString)
  end.

Definition is_text (v : pyval) (s : string) : bool :=
  match v with
  | PyStr t => String.eqb t s
  | _ => false
  end.

(** How the loop over the transcodings ends. *)
Inductive loop_end : Type :=
| Return (v : pyval)          (* [return resolved_url] *)
| Fallthrough (best_url : pyval).

Fixpoint preview_loop (E : env) (auth : string) (items : list preview_item)
    (best_url : pyval) : M loop_end :=
  match items with
  | [] => ret (Fallthrough best_url)
  | Malformed e :: _ => raise e
  | Item u protocol :: items' =>
      if pyval_truthy u then
        if is_text protocol "progressive" then
          try_except
            (bind (get_track_stream_link E (as_url u) auth)
                  (fun resolved_url => ret (Return resolved_url)))
            (fun _ => preview_loop E auth items' best_url)
        else if is_text protocol "hls" && negb (pyval_truthy best_url) then
          preview_loop E auth items' u
        else preview_loop E auth items' best_url
      else preview_loop E auth items' best_url
  end.

(** An entry that is read without error and is not progressive. *)
Definition not_progressive (it : preview_item) : bool :=
  match it with
  | Item _ protocol => negb (is_text protocol "progressive")
  | Malformed _ => false
  end.

(** An entry that is read without error, is not progressive and is no HLS
    entry with a URL. *)
Definition no_candidate (it : preview_item) : bool :=
  match it with
  | Item u protocol =>
      negb (is_text protocol "progressive")
      && negb (pyval_truthy u && is_text protocol "hls")
  | Malformed _ => false
  end.

(** The authorization used for the preview:
    [track_authorization or track_data.get('track_authorization', '')]. *)
Definition preview_auth (track_data : preview_data) (track_authorization : option string)
  : string :=
  if url_truthy track_authorization
  then field_text track_authorization
  else pv_track_authorization track_data.

(** [get_preview_stream_url]; [track] is the answer to the request for the
    track (or the exception of the request or of reading the answer),
    [track_authorization] the argument ([None] when not given). *)
Definition get_preview_stream_url (E : env) (track : result preview_data)
    (track_authorization : option string) : M pyval :=
  try_except
    (match track with
     | Raised e => raise e
     | Returned track_data =>
         if negb (pv_streamable track_data) then ret PyNone
         else
           match pv_transcodings track_data with
           | Raised e => raise e
           | Returned transcodings =>
               match transcodings with
               | [] => ret PyNone
               | _ :: _ =>
                   let auth := preview_auth track_data track_authorization in
                   bind (preview_loop E auth transcodings PyNone)
                        (fun r =>
                           match r with
                           | Return v => ret v
                           | Fallthrough best_url =>
                               if pyval_truthy best_url then
                                 try_except
                                   (get_track_stream_link E (as_url best_url) auth)
                                   (fun _ => ret PyNone)
                               else ret PyNone
                           end)
               end
           end
     end)
    (fun e =>
       bind (print ("[SoundCloud] Error getting preview stream: " ++ exn_str e))
            (fun _ => ret PyNone)).

(** ** Sample data *)

(** Modelled from the spec: [CodecEnum] is declared in the host's
    [utils.models], which is not part of this repository; these are the
    codec names the spec and the source mention. *)
Definition CodecEnum_names : list string := ["AAC"; "OPUS"; "MP3"; "VORBIS"].

Definition known_codec (name : string) : bool :=
  existsb (String.eqb name) CodecEnum_names.

(** A run of 4301 digits, one more than [int] converts. *)
Fixpoint repeat_char (c : ascii) (n : nat) : string :=
  match n with
  | O => EmptyString
  | S n' => String c (repeat_char c n')
  end.

Definition long_digit_run : string := repeat_char "1" 4301.

(** A track whose only transcoding is an encrypted HLS stream. *)
Definition encrypted_transcoding : transcoding :=
  {| tr_url := Some "https://api-v2.soundcloud.com/media/soundcloud:tracks:1/stream/ctr-encrypted-hls";
     tr_protocol := "hls";
     tr_preset := "mp3_1_0" |}.

Definition encrypted_only_track : track_data :=
  {| downloadable := false; has_downloads_left := false; streamable := true;
     transcodings := [encrypted_transcoding] |}.

(** Two progressive MP3 transcodings with the same preset. *)
Definition mp3_first : transcoding :=
  {| tr_url := Some "https://api-v2.soundcloud.com/media/soundcloud:tracks:1/a/stream/progressive";
     tr_protocol := "progressive";
     tr_preset := "mp3_128k" |}.

Definition mp3_second : transcoding :=
  {| tr_url := Some "https://api-v2.soundcloud.com/media/soundcloud:tracks:1/b/stream/progressive";
     tr_protocol := "progressive";
     tr_preset := "mp3_128k" |}.

Definition aac_hls_128 : transcoding :=
  {| tr_url := Some "https://api-v2.soundcloud.com/media/soundcloud:tracks:1/c/stream/hls";
     tr_protocol := "hls";
     tr_preset := "aac_128k" |}.

Definition aac_progressive_128 : transcoding :=
  {| tr_url := Some "https://api-v2.soundcloud.com/media/soundcloud:tracks:1/d/stream/progressive";
     tr_protocol := "progressive";
     tr_preset := "aac_128k" |}.

(** A transcoding whose preset does not start with a codec name. *)
Definition abr_transcoding : transcoding :=
  {| tr_url := Some "https://api-v2.soundcloud.com/media/soundcloud:tracks:1/e/stream/hls";
     tr_protocol := "hls";
     tr_preset := "abr_sq" |}.


(** The projection of a selected stream the host sees: URL, codec, protocol. *)
Definition selected_view (b : stream) : string * string * bool :=
  (url b, codec b, is_hls b).

(** The ranking order: [a] does not come after [b]. *)
Definition ranked_ge (a b : stream) : Prop :=
  key_ltb (sort_key a) (sort_key b) = false.

(** Whether the diagnostic of a selection is the DRM one. *)
Definition is_DRM_error (e : option string) : bool :=
  match e with
  | Some msg => String.eqb msg DRM_error
  | None => false
  end.

(** What [aac_hls_128] and [aac_progressive_128] become in
    [available_streams]. *)
Definition aac_hls_stream : stream :=
  {| url := "https://api-v2.soundcloud.com/media/soundcloud:tracks:1/c/stream/hls";
     codec := "AAC"; is_hls := true; is_encrypted := false;
     quality := 128; preference := 5; preset := "aac_128k" |}.

Definition aac_progressive_stream : stream :=
  {| url := "https://api-v2.soundcloud.com/media/soundcloud:tracks:1/d/stream/progressive";
     codec := "AAC"; is_hls := false; is_encrypted := false;
     quality := 128; preference := 2; preset := "aac_128k" |}.

(** A session whose collaborators answer, with the media tool behaving as
    given. *)
Definition sample_env (importable : bool) (r : tool_run) : env :=
  {| access_token := "token";
     api_get_url := fun _ _ => Returned (PyStr "https://cf-hls-media.sndcdn.com/playlist.m3u8");
     temp_filename := fun n => "temp/" ++ Text.of_int (Z.of_nat n);
     download_answer := fun _ extension => Returned ("temp/raw." ++ extension);
     container_name :=
       fun c => if String.eqb c "AAC" then Some "m4a"
                else if String.eqb c "MP3" then Some "mp3" else None;
     ffmpeg_importable := importable;
     tool := fun _ _ => r |}.

Definition empty_world : world :=
  {| files := []; stdout := []; tool_launches := 0; fetched := []; temp_names := 0 |}.

Definition failing_run : tool_run :=
  {| wrote_output := true; ending := Exit 1 "Conversion failed!" |}.

Definition hls_track_url : option string :=
  Some "https://api-v2.soundcloud.com/media/soundcloud:tracks:1/c/stream/hls".

Definition progressive_track_url : option string :=
  Some "https://api-v2.soundcloud.com/media/soundcloud:tracks:1/a/stream/progressive".

(** What [mp3_first] becomes in [available_streams]. *)
Definition mp3_first_stream : stream :=
  {| url := "https://api-v2.soundcloud.com/media/soundcloud:tracks:1/a/stream/progressive";
     codec := "MP3"; is_hls := false; is_encrypted := false;
     quality := 128; preference := 1; preset := "mp3_128k" |}.

Definition streaming_track (ts : list transcoding) : track_data :=
  {| downloadable := false; has_downloads_left := false; streamable := true;
     transcodings := ts |}.

(** A collection served in two pages; the first page also holds an entry
    without [id]. *)
Definition page_one : json :=
  JDict [("collection", JList [JDict [("id", JNum 1)]; JDict [("title", JStr "x")]]);
         ("next_href", JStr "https://api-v2.soundcloud.com/users/7/tracks?offset=1")].

Definition page_two : json :=
  JDict [("collection", JList [JDict [("id", JNum 2)]]); ("next_href", JNull)].

Definition two_page_session : session :=
  {| http_get := fun _ u _ =>
       if String.eqb u "https://api-v2.soundcloud.com/users/7/tracks"
       then Returned {| status_code := 200; text := ""; json_body := Some page_one |}
       else if String.eqb u "https://api-v2.soundcloud.com/users/7/tracks?offset=1"
       then Returned {| status_code := 200; text := ""; json_body := Some page_two |}
       else Returned {| status_code := 404; text := "not found"; json_body := None |} |}.

(** A streamable track whose HLS transcoding is listed before the
    progressive one. *)
Definition preview_track : preview_data :=
  {| pv_streamable := true;
     pv_transcodings :=
       Returned [Item (PyStr "https://api-v2.soundcloud.com/media/x/stream/hls") (PyStr "hls");
                 Item (PyStr "https://api-v2.soundcloud.com/media/x/stream/progressive")
                      (PyStr "progressive")];
     pv_track_authorization := "auth" |}.

(** * Properties *)

(** ** Sanity checks of the text primitives and the extractors *)

Example split_preset : Text.split "_" "opus_0_10" = ["opus"; "0"; "10"].
Proof. reflexivity. Qed.

Example split_empty : Text.split "_" "" = [""].
Proof. reflexivity. Qed.

Example split_str_api :
  Text.split_str api_base "https://api-v2.soundcloud.com/media/x/stream/hls"
  = [""; "media/x/stream/hls"].
Proof. reflexivity. Qed.

Example replace_mpeg : Text.replace "mpeg" "mp3" "x-mpeg-mpeg" = "x-mp3-mp3".
Proof. reflexivity. Qed.

Example search_leftmost : Text.search_digits_k "a12x34k_5k" = Some "34".
Proof. reflexivity. Qed.

Example aac_256k : _parse_aac_bitrate_from_preset (PyStr "aac_256k") = 256.
Proof. reflexivity. Qed.

Example aac_1_0 : _parse_aac_bitrate_from_preset (PyStr "aac_1_0") = 64.
Proof. reflexivity. Qed.

Example mp3_128k : _parse_progressive_bitrate_from_preset (PyStr "mp3_128k") "MP3" = 128.
Proof. reflexivity. Qed.

Example opus_0_10 : _parse_progressive_bitrate_from_preset (PyStr "opus_0_10") "OPUS" = 0.
Proof. reflexivity. Qed.

Example abr_sq : _parse_progressive_bitrate_from_preset (PyStr "abr_sq") "OPUS" = 96.
Proof. reflexivity. Qed.

(** ** Facts about the text primitives *)

Lemma is_digit_underscore : Text.is_digit "_" = false.
Proof. reflexivity. Qed.

Lemma is_digit_k : Text.is_digit "k" = false.
Proof. reflexivity. Qed.

Lemma digit_value_nonneg (c : ascii) : Text.is_digit c = true -> 0 <= Text.digit_value c.
Proof.
  unfold Text.is_digit, Text.digit_value. intros H.
  apply andb_true_iff in H. destruct H as [H _].
  apply Nat.leb_le in H. lia.
Qed.

Lemma digits_value_nonneg (s : string) :
  forall acc, 0 <= acc -> Text.all_digits s = true -> 0 <= Text.digits_value acc s.
Proof.
  induction s as [|c s IH]; cbn [Text.digits_value Text.all_digits];
    intros acc Hacc H; [exact Hacc|].
  apply andb_true_iff in H. destruct H as [Hc Hs].
  apply IH; [|exact Hs]. pose proof (digit_value_nonneg c Hc). lia.
Qed.

Lemma isdigit_all_digits (s : string) : Text.isdigit s = true -> Text.all_digits s = true.
Proof. destruct s; simpl; [discriminate|auto]. Qed.

Lemma int_of_isdigit (s : string) :
  Text.isdigit s = true ->
  Text.within_digit_limit (String.length s) = true ->
  Text.int s = Some (Text.digits_value 0 s).
Proof. unfold Text.int. intros -> ->. reflexivity. Qed.

Lemma int_over_limit (s : string) :
  Text.within_digit_limit (String.length s) = false -> Text.int s = None.
Proof. unfold Text.int. intros ->. now rewrite andb_false_r. Qed.

(** A run of digits is split off whole when what follows does not start
    with a digit. *)
Lemma span_digits_app (q r : string) :
  (match r with EmptyString => True | String c _ => Text.is_digit c = false end) ->
  Text.span_digits (q ++ r)
  = (fst (Text.span_digits q), snd (Text.span_digits q) ++ r).
Proof.
  intros Hr. induction q as [|c q IH]; simpl.
  - destruct r as [|c r]; simpl; [reflexivity|]. rewrite Hr. reflexivity.
  - destruct (Text.is_digit c); simpl.
    + rewrite IH. destruct (Text.span_digits q). reflexivity.
    + reflexivity.
Qed.

Lemma span_digits_all (ds : string) :
  Text.all_digits ds = true -> Text.span_digits ds = (ds, EmptyString).
Proof.
  induction ds as [|c ds IH]; simpl; [reflexivity|].
  intros H. apply andb_true_iff in H. destruct H as [-> Hs].
  rewrite (IH Hs). reflexivity.
Qed.

(** Any run of digits followed by [k] at the head of the text is the match
    of [(\d+)k] there. *)
Lemma match_digits_k_run (ds rest : string) :
  Text.isdigit ds = true ->
  Text.match_digits_k (ds ++ String "k" rest) = Some ds.
Proof.
  intros H. unfold Text.match_digits_k.
  rewrite span_digits_app by reflexivity.
  rewrite (span_digits_all ds (isdigit_all_digits ds H)). simpl.
  destruct ds; [discriminate|reflexivity].
Qed.

(** What follows an underscore does not change the match before it. *)
Lemma match_digits_k_before_underscore (q t : string) :
  Text.match_digits_k (q ++ String "_" t) = Text.match_digits_k (q ++ "_").
Proof.
  unfold Text.match_digits_k.
  rewrite !span_digits_app by reflexivity.
  destruct (Text.span_digits q) as [a b]; simpl.
  destruct a; [reflexivity|].
  destruct b; simpl; reflexivity.
Qed.

Lemma search_digits_k_after_prefix (prefix ds rest : string) :
  Text.isdigit ds = true ->
  Text.search_digits_k (prefix ++ "_") = None ->
  Text.search_digits_k (prefix ++ String "_" (ds ++ String "k" rest)) = Some ds.
Proof.
  intros Hds. induction prefix as [|c p IH]; intros Hp.
  - cbn [append Text.search_digits_k].
    replace (Text.match_digits_k (String "_" (ds ++ String "k" rest))) with (@None string)
      by reflexivity.
    destruct ds as [|d ds]; [discriminate|].
    cbn [append Text.search_digits_k].
    change (String d (ds ++ String "k" rest)) with (String d ds ++ String "k" rest).
    rewrite match_digits_k_run by exact Hds. reflexivity.
  - cbn [append Text.search_digits_k] in Hp |- *.
    change (String c (p ++ String "_" (ds ++ String "k" rest)))
      with (String c p ++ String "_" (ds ++ String "k" rest)).
    rewrite match_digits_k_before_underscore.
    change (String c p ++ "_") with (String c (p ++ "_")).
    destruct (Text.match_digits_k (String c (p ++ "_"))); [discriminate|].
    apply IH. exact Hp.
Qed.

Lemma span_digits_fst (s : string) : Text.all_digits (fst (Text.span_digits s)) = true.
Proof.
  induction s as [|c s IH]; simpl; [reflexivity|].
  destruct (Text.is_digit c) eqn:Hc; [|reflexivity].
  destruct (Text.span_digits s) as [ds rest]. simpl in *. now rewrite Hc, IH.
Qed.

Lemma match_digits_k_isdigit (s g : string) :
  Text.match_digits_k s = Some g -> Text.isdigit g = true.
Proof.
  unfold Text.match_digits_k. pose proof (span_digits_fst s) as H.
  destruct (Text.span_digits s) as [[|d ds] rest]; [discriminate|].
  destruct rest as [|c rest]; [discriminate|].
  destruct c as [[] [] [] [] [] [] [] []]; try discriminate.
  intros [= <-]. exact H.
Qed.

Lemma search_digits_k_isdigit (s g : string) :
  Text.search_digits_k s = Some g -> Text.isdigit g = true.
Proof.
  induction s as [|c s IH]; cbn [Text.search_digits_k]; [discriminate|].
  destruct (Text.match_digits_k (String c s)) eqn:Hm.
  - intros [= <-]. exact (match_digits_k_isdigit _ _ Hm).
  - exact IH.
Qed.

Lemma search_aac_digits_k_isdigit (s g : string) :
  Text.search_aac_digits_k s = Some g -> Text.isdigit g = true.
Proof.
  induction s as [|c s IH]; cbn [Text.search_aac_digits_k]; [discriminate|].
  destruct (Text.startswith "aac_" (String c s)); [|exact IH].
  destruct (Text.match_digits_k (Text.drop 4 (String c s))) eqn:Hm.
  - intros [= <-]. exact (match_digits_k_isdigit _ _ Hm).
  - exact IH.
Qed.

Lemma int_nonneg (s : string) (n : Z) : Text.int s = Some n -> 0 <= n.
Proof.
  unfold Text.int. destruct (Text.isdigit s) eqn:H; [|discriminate].
  destruct (Text.within_digit_limit (String.length s)); [|discriminate].
  intros [= <-]. apply digits_value_nonneg; [lia|]. now apply isdigit_all_digits.
Qed.

Lemma search_aac_at_head (ds rest : string) :
  Text.isdigit ds = true ->
  Text.search_aac_digits_k ("aac_" ++ ds ++ String "k" rest) = Some ds.
Proof.
  intros H. cbn [append Text.search_aac_digits_k].
  replace (Text.startswith "aac_" (String "a" (String "a" (String "c" (String "_" (ds ++ String "k" rest))))))
    with true.
  - cbn [Text.drop]. now rewrite match_digits_k_run.
  - reflexivity.
Qed.

Lemma contains_underscore_digits (ds : string) :
  Text.all_digits ds = true -> Text.contains "_" ds = false.
Proof.
  induction ds as [|c ds IH]; [reflexivity|].
  cbn [Text.all_digits Text.contains]. intros H.
  apply andb_true_iff in H. destruct H as [Hc Hs].
  rewrite (IH Hs), orb_false_r. cbn [Text.startswith].
  rewrite andb_true_r. destruct (Ascii.eqb "_" c) eqn:E; [|reflexivity].
  apply Ascii.eqb_eq in E. subst c. discriminate Hc.
Qed.

(** [split] cuts at the first underscore. *)
Lemma split_first_segment (a t : string) :
  Text.contains "_" a = false ->
  Text.split "_" (a ++ String "_" t) = a :: Text.split "_" t.
Proof.
  induction a as [|c a IH]; [reflexivity|].
  cbn [Text.contains append Text.split]. intros H.
  apply orb_false_iff in H. destruct H as [Hc Ha].
  destruct (Ascii.eqb c "_") eqn:E.
  - apply Ascii.eqb_eq in E. subst c. discriminate Hc.
  - rewrite (IH Ha). reflexivity.
Qed.

Lemma split_opus_level (level rest : string) :
  Text.isdigit level = true ->
  Text.split "_" ("opus_" ++ level ++ "_" ++ rest)
  = "opus" :: level :: Text.split "_" rest.
Proof.
  intros H.
  change ("opus_" ++ level ++ "_" ++ rest)
    with ("opus" ++ String "_" (level ++ String "_" rest)).
  rewrite split_first_segment by reflexivity.
  rewrite split_first_segment
    by (apply contains_underscore_digits, isdigit_all_digits, H).
  reflexivity.
Qed.

(** ** The extractors *)

(** C3 (the code departs from the claim).  On an Opus quality-level preset
    [opus_<level>_...] without a [<digits>k] pattern, the generic extractor
    returns the level itself: the numeric second segment is returned by the
    generic branch before the Opus branch that would scale it to
    [level*12+32] is reached.  (A level of more digits than [int] converts
    gives 0; the scaled value is returned in neither case.) *)
Theorem opus_level_preset_returns_level (level rest : string) :
  Text.isdigit level = true ->
  Text.search_digits_k ("opus_" ++ level ++ "_" ++ rest) = None ->
  Text.contains "abr_hq" ("opus_" ++ level ++ "_" ++ rest) = false ->
  Text.contains "abr_sq" ("opus_" ++ level ++ "_" ++ rest) = false ->
  _parse_progressive_bitrate_from_preset (PyStr ("opus_" ++ level ++ "_" ++ rest)) "OPUS"
    = (if Text.within_digit_limit (String.length level)
       then Text.digits_value 0 level else 0)
  /\ _parse_progressive_bitrate_from_preset (PyStr ("opus_" ++ level ++ "_" ++ rest)) "OPUS"
    <> Text.digits_value 0 level * 12 + 32.
Proof.
  intros Hd Hs Hhq Hsq.
  assert (E : _parse_progressive_bitrate_from_preset
                (PyStr ("opus_" ++ level ++ "_" ++ rest)) "OPUS"
              = (if Text.within_digit_limit (String.length level)
                 then Text.digits_value 0 level else 0)).
  { unfold _parse_progressive_bitrate_from_preset.
    rewrite Hhq, Hsq, Hs, !andb_false_r.
    cbn [group_int]. cbv zeta.
    rewrite (split_opus_level level rest Hd).
    unfold second_part_isdigit. cbn [length nth].
    rewrite Hd. cbn [Nat.ltb Nat.leb andb].
    destruct (Text.within_digit_limit (String.length level)) eqn:Hl.
    - rewrite (int_of_isdigit level Hd Hl). reflexivity.
    - rewrite (int_over_limit level Hl). reflexivity. }
  split; [exact E|].
  rewrite E.
  pose proof (digits_value_nonneg level 0 ltac:(lia) (isdigit_all_digits level Hd)).
  destruct (Text.within_digit_limit (String.length level)); lia.
Qed.

Lemma opus_level_preset_returns_level_witness :
  _parse_progressive_bitrate_from_preset (PyStr "opus_5_0") "OPUS" = 5
  /\ _parse_progressive_bitrate_from_preset (PyStr "opus_5_0") "OPUS" <> 92.
Proof.
  apply (opus_level_preset_returns_level "5" "0"); reflexivity.
Defined.

Lemma aac_extractor_nonneg (v : pyval) : 0 <= _parse_aac_bitrate_from_preset v.
Proof.
  destruct v as [| |s]; cbn [_parse_aac_bitrate_from_preset]; try lia.
  destruct (Text.search_aac_digits_k s) as [g|].
  - destruct (Text.int g) as [n|] eqn:E; [exact (int_nonneg g n E)|lia].
  - destruct (Text.startswith "aac_" s); lia.
Qed.

Lemma progressive_extractor_nonneg (v : pyval) (c : string) :
  0 <= _parse_progressive_bitrate_from_preset v c.
Proof.
  destruct v as [| |s]; cbn [_parse_progressive_bitrate_from_preset]; try lia.
  destruct (String.eqb c "OPUS" && Text.contains "abr_hq" s); [lia|].
  destruct (String.eqb c "OPUS" && Text.contains "abr_sq" s); [lia|].
  destruct (group_int (Text.search_digits_k s)) as [n|] eqn:E.
  - unfold group_int in E. destruct (Text.search_digits_k s); [|discriminate].
    exact (int_nonneg _ _ E).
  - cbv zeta.
    destruct (if second_part_isdigit (Text.split "_" s)
              then Text.int (nth 1 (Text.split "_" s) "") else None) as [n|] eqn:E2.
    + destruct (second_part_isdigit (Text.split "_" s)); [|discriminate].
      exact (int_nonneg _ _ E2).
    + destruct (String.eqb c "OPUS" && (1 <? length (Text.split "_" s))%nat
                && String.eqb (nth 0 (Text.split "_" s) "") "opus"
                && Text.isdigit (nth 1 (Text.split "_" s) "")); [|lia].
      destruct (Text.int (nth 1 (Text.split "_" s) "")) as [q|] eqn:E3; [|lia].
      pose proof (int_nonneg _ _ E3). lia.
Qed.

Lemma abr_conditions (codec s : string) :
  String.eqb codec "OPUS" && (Text.contains "abr_hq" s || Text.contains "abr_sq" s) = false ->
  String.eqb codec "OPUS" && Text.contains "abr_hq" s = false
  /\ String.eqb codec "OPUS" && Text.contains "abr_sq" s = false.
Proof.
  destruct (String.eqb codec "OPUS"); [|split; reflexivity].
  cbn [andb]. intros H. now apply orb_false_iff in H.
Qed.

Lemma isdigit_before_k (ds : string) : Text.isdigit (ds ++ "k") = false.
Proof.
  assert (H : Text.all_digits (ds ++ "k") = false).
  { induction ds as [|c ds IH]; [reflexivity|].
    cbn [append Text.all_digits]. rewrite IH. apply andb_false_r. }
  destruct ds; [reflexivity|exact H].
Qed.

Lemma split_absent (sep : ascii) (t : string) :
  Text.contains (String sep "") t = false -> Text.split sep t = [t].
Proof.
  induction t as [|c t IH]; [reflexivity|].
  cbn [Text.contains Text.split Text.startswith]. intros H.
  apply orb_false_iff in H. destruct H as [Hc Ht].
  rewrite andb_true_r in Hc. rewrite Ascii.eqb_sym in Hc.
  now rewrite Hc, (IH Ht).
Qed.

Lemma contains_underscore_digits_k (ds : string) :
  Text.all_digits ds = true -> Text.contains "_" (ds ++ "k") = false.
Proof.
  induction ds as [|c ds IH]; [reflexivity|].
  cbn [Text.all_digits append Text.contains]. intros H.
  apply andb_true_iff in H. destruct H as [Hc Hs].
  rewrite (IH Hs), orb_false_r. cbn [Text.startswith].
  rewrite andb_true_r. destruct (Ascii.eqb "_" c) eqn:E; [|reflexivity].
  apply Ascii.eqb_eq in E. subst c. discriminate Hc.
Qed.

(** Above the digit limit [int] raises and the generic extractor goes on
    to its later rules, which find nothing in [<prefix>_<digits>k] when the
    prefix is a single segment. *)
Lemma progressive_extractor_digits_over_limit (prefix ds codec : string) :
  Text.isdigit ds = true ->
  Text.within_digit_limit (String.length ds) = false ->
  Text.search_digits_k (prefix ++ "_") = None ->
  Text.contains "_" prefix = false ->
  String.eqb codec "OPUS"
    && (Text.contains "abr_hq" (prefix ++ "_" ++ ds ++ "k")
        || Text.contains "abr_sq" (prefix ++ "_" ++ ds ++ "k")) = false ->
  _parse_progressive_bitrate_from_preset (PyStr (prefix ++ "_" ++ ds ++ "k")) codec = 0.
Proof.
  intros Hd Hl Hp Hu Habr. unfold _parse_progressive_bitrate_from_preset.
  destruct (abr_conditions _ _ Habr) as [H1 H2]. rewrite H1, H2.
  change (prefix ++ "_" ++ ds ++ "k") with (prefix ++ String "_" (ds ++ String "k" "")).
  rewrite (search_digits_k_after_prefix prefix ds "" Hd Hp).
  cbn [group_int]. rewrite (int_over_limit ds Hl). cbv zeta.
  rewrite (split_first_segment prefix (ds ++ "k") Hu).
  rewrite (split_absent "_" (ds ++ "k"))
    by (apply contains_underscore_digits_k, isdigit_all_digits, Hd).
  unfold second_part_isdigit. cbn [length nth].
  rewrite isdigit_before_k, !andb_false_r. reflexivity.
Qed.

Lemma progressive_extractor_digits_k (prefix ds codec : string) :
  Text.isdigit ds = true ->
  Text.within_digit_limit (String.length ds) = true ->
  Text.search_digits_k (prefix ++ "_") = None ->
  String.eqb codec "OPUS"
    && (Text.contains "abr_hq" (prefix ++ "_" ++ ds ++ "k")
        || Text.contains "abr_sq" (prefix ++ "_" ++ ds ++ "k")) = false ->
  _parse_progressive_bitrate_from_preset (PyStr (prefix ++ "_" ++ ds ++ "k")) codec
  = Text.digits_value 0 ds.
Proof.
  intros Hd Hl Hp Habr. unfold _parse_progressive_bitrate_from_preset.
  destruct (abr_conditions _ _ Habr) as [H1 H2]. rewrite H1, H2.
  change (prefix ++ "_" ++ ds ++ "k") with (prefix ++ String "_" (ds ++ String "k" "")).
  rewrite (search_digits_k_after_prefix prefix ds "" Hd Hp).
  cbn [group_int]. now rewrite (int_of_isdigit ds Hd Hl).
Qed.

Lemma aac_extractor_digits_k (ds rest : string) :
  Text.isdigit ds = true ->
  Text.within_digit_limit (String.length ds) = true ->
  _parse_aac_bitrate_from_preset (PyStr ("aac_" ++ ds ++ "k" ++ rest))
  = Text.digits_value 0 ds.
Proof.
  intros Hd Hl. unfold _parse_aac_bitrate_from_preset.
  change ("aac_" ++ ds ++ "k" ++ rest) with ("aac_" ++ ds ++ String "k" rest).
  rewrite (search_aac_at_head ds rest Hd). now rewrite (int_of_isdigit ds Hd Hl).
Qed.

(** Above the digit limit [int] raises and the AAC extractor returns 0. *)
Lemma aac_extractor_digits_over_limit (ds rest : string) :
  Text.isdigit ds = true ->
  Text.within_digit_limit (String.length ds) = false ->
  _parse_aac_bitrate_from_preset (PyStr ("aac_" ++ ds ++ "k" ++ rest)) = 0.
Proof.
  intros Hd Hl. unfold _parse_aac_bitrate_from_preset.
  change ("aac_" ++ ds ++ "k" ++ rest) with ("aac_" ++ ds ++ String "k" rest).
  rewrite (search_aac_at_head ds rest Hd). now rewrite (int_over_limit ds Hl).
Qed.

Lemma progressive_extractor_no_signal (s codec : string) :
  Text.search_digits_k s = None ->
  second_part_isdigit (Text.split "_" s) = false ->
  String.eqb codec "OPUS"
    && (Text.contains "abr_hq" s || Text.contains "abr_sq" s) = false ->
  _parse_progressive_bitrate_from_preset (PyStr s) codec = 0.
Proof.
  intros Hs Hp Habr. unfold _parse_progressive_bitrate_from_preset.
  rewrite Hs, Hp. cbn [group_int]. cbv zeta.
  assert (Hfb : String.eqb codec "OPUS" && (1 <? length (Text.split "_" s))%nat
                && String.eqb (nth 0 (Text.split "_" s) "") "opus"
                && Text.isdigit (nth 1 (Text.split "_" s) "") = false).
  { unfold second_part_isdigit in Hp.
    destruct (String.eqb codec "OPUS"); [|reflexivity].
    destruct (1 <? length (Text.split "_" s))%nat; [|reflexivity].
    cbn [andb] in *. rewrite Hp. apply andb_false_r. }
  rewrite Hfb.
  destruct (String.eqb codec "OPUS"); [|reflexivity].
  cbn [andb] in *. apply orb_false_iff in Habr. destruct Habr as [-> ->].
  reflexivity.
Qed.

(** C4, the claim as it stands: for a preset of the form
    [<prefix>_<digits>k] the extractors return the digits.  Refuted for the
    AAC extractor at ["aac_hq_128k"] (64: its pattern wants the digits right
    after [aac_]), for the generic extractor at ["mp3_4k_128k"] (4: the
    leftmost [<digits>k] is taken), and for the score of an unencrypted HLS
    transcoding with preset ["aac_hq_128k"] (64). *)
Lemma digits_k_presets_not_always_extracted :
  ~ (forall prefix ds, Text.isdigit ds = true ->
       _parse_aac_bitrate_from_preset (PyStr (prefix ++ "_" ++ ds ++ "k"))
       = Text.digits_value 0 ds)
  /\ ~ (forall prefix ds codec, Text.isdigit ds = true ->
       _parse_progressive_bitrate_from_preset (PyStr (prefix ++ "_" ++ ds ++ "k")) codec
       = Text.digits_value 0 ds)
  /\ ~ (forall u protocol prefix ds, Text.isdigit ds = true ->
       quality_score_of {| tr_url := u; tr_protocol := protocol;
                           tr_preset := prefix ++ "_" ++ ds ++ "k" |}
       = Text.digits_value 0 ds).
Proof.
  split; [|split]; intros H.
  - specialize (H "aac_hq" "128" eq_refl). vm_compute in H. discriminate H.
  - specialize (H "mp3_4k" "128" "MP3" eq_refl). vm_compute in H. discriminate H.
  - specialize (H (tr_url aac_hls_128) "hls" "aac_hq" "128" eq_refl).
    vm_compute in H. discriminate H.
Qed.

(** C4, amended.  (1) A preset [<prefix>_<digits>k], the digits being no
    more than [int] converts, yields the digits from the generic extractor
    when no [<digits>k] occurs earlier, in the prefix, and no Opus
    [abr_hq]/[abr_sq] marker applies; the AAC extractor yields the digits of
    a preset that starts with [aac_<digits>k].  With more digits than [int]
    converts, the [ValueError] is caught: the AAC extractor returns 0, and
    so does the generic one for a prefix of one segment.  (2) A preset that
    starts with [aac_] and has no [aac_<digits>k] anywhere yields 64 from
    the AAC extractor.  (3) Without any signal the result is 0.  (4) Both
    extractors return an integer on every input, never a negative one, and
    0 on anything that is not a string. *)
Theorem extractors_contract :
  (forall prefix ds codec,
     Text.isdigit ds = true ->
     Text.within_digit_limit (String.length ds) = true ->
     Text.search_digits_k (prefix ++ "_") = None ->
     String.eqb codec "OPUS"
       && (Text.contains "abr_hq" (prefix ++ "_" ++ ds ++ "k")
           || Text.contains "abr_sq" (prefix ++ "_" ++ ds ++ "k")) = false ->
     _parse_progressive_bitrate_from_preset (PyStr (prefix ++ "_" ++ ds ++ "k")) codec
     = Text.digits_value 0 ds)
  /\ (forall ds rest,
        Text.isdigit ds = true ->
        Text.within_digit_limit (String.length ds) = true ->
        _parse_aac_bitrate_from_preset (PyStr ("aac_" ++ ds ++ "k" ++ rest))
        = Text.digits_value 0 ds)
  /\ (forall prefix ds codec,
        Text.isdigit ds = true ->
        Text.within_digit_limit (String.length ds) = false ->
        Text.search_digits_k (prefix ++ "_") = None ->
        Text.contains "_" prefix = false ->
        String.eqb codec "OPUS"
          && (Text.contains "abr_hq" (prefix ++ "_" ++ ds ++ "k")
              || Text.contains "abr_sq" (prefix ++ "_" ++ ds ++ "k")) = false ->
        _parse_progressive_bitrate_from_preset (PyStr (prefix ++ "_" ++ ds ++ "k")) codec
        = 0)
  /\ (forall ds rest,
        Text.isdigit ds = true ->
        Text.within_digit_limit (String.length ds) = false ->
        _parse_aac_bitrate_from_preset (PyStr ("aac_" ++ ds ++ "k" ++ rest)) = 0)
  /\ (forall other,
        Text.search_aac_digits_k ("aac_" ++ other) = None ->
        _parse_aac_bitrate_from_preset (PyStr ("aac_" ++ other)) = 64)
  /\ (forall s codec,
        Text.search_digits_k s = None ->
        second_part_isdigit (Text.split "_" s) = false ->
        String.eqb codec "OPUS"
          && (Text.contains "abr_hq" s || Text.contains "abr_sq" s) = false ->
        _parse_progressive_bitrate_from_preset (PyStr s) codec = 0)
  /\ (forall s,
        Text.search_aac_digits_k s = None ->
        Text.startswith "aac_" s = false ->
        _parse_aac_bitrate_from_preset (PyStr s) = 0)
  /\ (forall v codec,
        0 <= _parse_aac_bitrate_from_preset v
        /\ 0 <= _parse_progressive_bitrate_from_preset v codec)
  /\ (forall v codec,
        (forall s, v <> PyStr s) ->
        _parse_aac_bitrate_from_preset v = 0
        /\ _parse_progressive_bitrate_from_preset v codec = 0).
Proof.
  split; [exact progressive_extractor_digits_k|].
  split; [exact aac_extractor_digits_k|].
  split; [exact progressive_extractor_digits_over_limit|].
  split; [exact aac_extractor_digits_over_limit|].
  split.
  { intros other H. unfold _parse_aac_bitrate_from_preset. rewrite H. reflexivity. }
  split; [exact progressive_extractor_no_signal|].
  split.
  { intros s H1 H2. unfold _parse_aac_bitrate_from_preset. now rewrite H1, H2. }
  split.
  { intros v codec. split;
      [apply aac_extractor_nonneg|apply progressive_extractor_nonneg]. }
  intros v codec Hv. destruct v as [| |s]; try (split; reflexivity).
  exfalso. exact (Hv s eq_refl).
Qed.

Lemma extractors_contract_witness :
  _parse_progressive_bitrate_from_preset (PyStr "mp3_128k") "MP3" = 128
  /\ _parse_aac_bitrate_from_preset (PyStr "aac_256k") = 256
  /\ _parse_progressive_bitrate_from_preset
       (PyStr ("mp3" ++ "_" ++ long_digit_run ++ "k")) "MP3" = 0
  /\ _parse_aac_bitrate_from_preset (PyStr ("aac_" ++ long_digit_run ++ "k" ++ "")) = 0
  /\ _parse_aac_bitrate_from_preset (PyStr "aac_1_0") = 64
  /\ _parse_progressive_bitrate_from_preset (PyStr "mp3_standard") "MP3" = 0
  /\ _parse_aac_bitrate_from_preset (PyStr "mp3_1_0") = 0
  /\ _parse_aac_bitrate_from_preset PyNone = 0
  /\ _parse_progressive_bitrate_from_preset (PyInt 7) "OPUS" = 0.
Proof.
  destruct extractors_contract as (H1 & H2 & O1 & O2 & H3 & H4 & H5 & _ & H7).
  split; [apply (H1 "mp3" "128" "MP3"); reflexivity|].
  split; [apply (H2 "256" ""); reflexivity|].
  split; [apply (O1 "mp3" long_digit_run "MP3"); vm_compute; reflexivity|].
  split; [apply (O2 long_digit_run ""); vm_compute; reflexivity|].
  split; [apply (H3 "1_0"); reflexivity|].
  split; [apply (H4 "mp3_standard" "MP3"); reflexivity|].
  split; [apply (H5 "mp3_1_0"); reflexivity|].
  split; [apply (H7 PyNone "OPUS"); discriminate|].
  apply (H7 (PyInt 7) "OPUS"); discriminate.
Defined.

(** ** The ranking *)

Lemma key_ltb_false (a b : Z * Z) :
  key_ltb a b = false <-> fst b < fst a \/ (fst a = fst b /\ snd b <= snd a).
Proof.
  unfold key_ltb.
  destruct (Z.ltb_spec (fst a) (fst b)), (Z.eqb_spec (fst a) (fst b)),
    (Z.ltb_spec (snd a) (snd b)); cbn; split; intros; try discriminate;
    try reflexivity; lia.
Qed.

Lemma key_ltb_true (a b : Z * Z) :
  key_ltb a b = true <-> fst a < fst b \/ (fst a = fst b /\ snd a < snd b).
Proof.
  unfold key_ltb.
  destruct (Z.ltb_spec (fst a) (fst b)), (Z.eqb_spec (fst a) (fst b)),
    (Z.ltb_spec (snd a) (snd b)); cbn; split; intros; try discriminate;
    try reflexivity; lia.
Qed.

Lemma ranked_ge_trans (a b c : stream) : ranked_ge a b -> ranked_ge b c -> ranked_ge a c.
Proof. unfold ranked_ge. rewrite !key_ltb_false. lia. Qed.

Lemma ranked_ge_antisym (a b : stream) :
  ranked_ge a b -> ranked_ge b a -> sort_key a = sort_key b.
Proof.
  unfold ranked_ge. rewrite !key_ltb_false.
  destruct (sort_key a), (sort_key b); cbn. intros. f_equal; lia.
Qed.

Lemma insert_desc_perm (x : stream) (l : list stream) :
  Permutation (insert_desc x l) (x :: l).
Proof.
  induction l as [|y l IH]; cbn; [reflexivity|].
  destruct (key_ltb (sort_key x) (sort_key y)); [|reflexivity].
  rewrite IH. apply perm_swap.
Qed.

Lemma sort_desc_perm (l : list stream) : Permutation (sort_desc l) l.
Proof.
  induction l as [|x l IH]; cbn; [reflexivity|].
  rewrite insert_desc_perm. now constructor.
Qed.

Lemma insert_desc_sorted (x : stream) (l : list stream) :
  StronglySorted ranked_ge l -> StronglySorted ranked_ge (insert_desc x l).
Proof.
  induction l as [|y l IH]; cbn; intros Hs.
  - constructor; constructor.
  - inversion Hs as [|? ? Hl Hy]; subst.
    destruct (key_ltb (sort_key x) (sort_key y)) eqn:E.
    + constructor; [now apply IH|].
      apply (Permutation_Forall (Permutation_sym (insert_desc_perm x l))).
      constructor; [|exact Hy].
      unfold ranked_ge. apply key_ltb_true in E. apply key_ltb_false. lia.
    + constructor; [exact Hs|].
      constructor; [exact E|].
      eapply Forall_impl; [|exact Hy].
      intros z Hz. exact (ranked_ge_trans x y z E Hz).
Qed.

Lemma sort_desc_sorted (l : list stream) : StronglySorted ranked_ge (sort_desc l).
Proof.
  induction l as [|x l IH]; cbn; [constructor|]. now apply insert_desc_sorted.
Qed.

Lemma sorted_after (l1 l2 : list stream) (x : stream) :
  StronglySorted ranked_ge (l1 ++ x :: l2)%list -> Forall (ranked_ge x) l2.
Proof.
  induction l1 as [|y l1 IH]; cbn; intros H; inversion H; subst; auto.
Qed.

(** The head of the sorted list is an element of the list that no element
    outranks. *)
Lemma sort_desc_head (l : list stream) (b : stream) (t : list stream) :
  sort_desc l = b :: t -> In b l /\ forall x, In x l -> ranked_ge b x.
Proof.
  intros E. pose proof (sort_desc_perm l) as P.
  pose proof (sort_desc_sorted l) as S. rewrite E in P, S.
  split.
  - apply (Permutation_in _ P). now left.
  - intros x Hx. apply (Permutation_in _ (Permutation_sym P)) in Hx.
    destruct Hx as [<-|Hx].
    + unfold ranked_ge. apply key_ltb_false. lia.
    + inversion S as [|? ? _ Hb]; subst.
      rewrite Forall_forall in Hb. now apply Hb.
Qed.

Lemma sort_desc_nil (l : list stream) : sort_desc l = [] -> l = [].
Proof.
  intros E. pose proof (sort_desc_perm l) as P. rewrite E in P.
  now apply Permutation_nil in P.
Qed.

(** The head of the sorted list is the first element of the list with the
    largest key. *)
Lemma sort_desc_first_of_best (l : list stream) (b : stream) (t : list stream) :
  sort_desc l = b :: t ->
  exists l1 l2,
    l = (l1 ++ b :: l2)%list
    /\ (forall x, In x l1 -> key_ltb (sort_key x) (sort_key b) = true)
    /\ (forall x, In x l2 -> ranked_ge b x).
Proof.
  revert b t. induction l as [|x l IH]; intros b t E; [discriminate|].
  cbn [sort_desc fold_right] in E. fold (sort_desc l) in E.
  destruct (sort_desc l) as [|h t'] eqn:Es.
  - apply sort_desc_nil in Es. subst l. cbn in E. injection E as <- <-.
    exists [], []. repeat split; intros y [].
  - cbn [insert_desc] in E.
    destruct (key_ltb (sort_key x) (sort_key h)) eqn:Ex.
    + injection E as <- _.
      destruct (IH h t' eq_refl) as (l1 & l2 & -> & H1 & H2).
      exists (x :: l1), l2. split; [reflexivity|]. split; [|exact H2].
      intros y [<-|Hy]; [exact Ex|exact (H1 y Hy)].
    + injection E as <- _.
      exists [], l. split; [reflexivity|]. split; [intros y []|].
      intros y Hy. apply (ranked_ge_trans x h y Ex).
      exact (proj2 (sort_desc_head l h t' Es) y Hy).
Qed.

Lemma NoDup_map_injective {A B : Type} (f : A -> B) (l : list A) (x y : A) :
  NoDup (map f l) -> In x l -> In y l -> f x = f y -> x = y.
Proof.
  induction l as [|a l IH]; cbn; intros Hn Hx Hy E; [contradiction|].
  inversion Hn as [|? ? Hnot Hn']; subst.
  destruct Hx as [->|Hx], Hy as [->|Hy]; auto.
  - exfalso. apply Hnot. rewrite E. now apply in_map.
  - exfalso. apply Hnot. rewrite <- E. now apply in_map.
Qed.

(** ** Which transcodings are retained *)

Lemma encrypted_quality (i : transcoding) :
  is_encrypted_hls_of i = true -> quality_score_of i = -100.
Proof. unfold quality_score_of. now intros ->. Qed.

Lemma unencrypted_quality_nonneg (i : transcoding) :
  is_encrypted_hls_of i = false -> 0 <= quality_score_of i.
Proof.
  unfold quality_score_of. intros ->.
  destruct (is_hls_of i);
    [destruct (String.eqb (stream_codec_name_of (tr_preset i)) "AAC")|];
    auto using aac_extractor_nonneg, progressive_extractor_nonneg.
Qed.

Lemma stream_of_transcoding_some (members : string -> bool) (i : transcoding) (s : stream) :
  stream_of_transcoding members i = Some s ->
  members (stream_codec_name_of (tr_preset i)) = true
  /\ url_truthy (tr_url i) = true
  /\ 0 <= quality_score_of i
  /\ s = {| url := url s;
            codec := stream_codec_name_of (tr_preset i);
            is_hls := is_hls_of i;
            is_encrypted := is_encrypted_hls_of i;
            quality := quality_score_of i;
            preference := codec_preference (stream_codec_name_of (tr_preset i)) (is_hls_of i);
            preset := tr_preset i |}
  /\ tr_url i = Some (url s).
Proof.
  unfold stream_of_transcoding.
  destruct (members (stream_codec_name_of (tr_preset i))); [|discriminate].
  destruct (tr_url i) as [u|] eqn:Eu; [|discriminate].
  destruct (url_truthy (Some u)) eqn:Et; [|discriminate].
  destruct (0 <=? quality_score_of i) eqn:Eq; [|discriminate].
  cbn [andb]. intros [= <-]. cbn. apply Z.leb_le in Eq. auto.
Qed.

Lemma stream_of_transcoding_retained (members : string -> bool) (i : transcoding) :
  members (stream_codec_name_of (tr_preset i)) = true ->
  url_truthy (tr_url i) = true ->
  0 <= quality_score_of i ->
  exists s, stream_of_transcoding members i = Some s.
Proof.
  intros Hm Hu Hq. unfold stream_of_transcoding. rewrite Hm.
  destruct (tr_url i) as [u|] eqn:Eu; [|discriminate Hu].
  rewrite Hu. apply Z.leb_le in Hq. rewrite Hq. cbn [andb]. eauto.
Qed.

(** An encrypted transcoding is scored -100 and then fails the test
    [quality_score >= 0]: it never reaches [available_streams]. *)
Lemma encrypted_never_retained (members : string -> bool) (i : transcoding) :
  is_encrypted_hls_of i = true -> stream_of_transcoding members i = None.
Proof.
  intros He. destruct (stream_of_transcoding members i) as [s|] eqn:E; [|reflexivity].
  apply stream_of_transcoding_some in E. destruct E as (_ & _ & Hq & _).
  rewrite (encrypted_quality i He) in Hq. lia.
Qed.

Lemma in_available_streams (members : string -> bool) (ts : list transcoding) (s : stream) :
  In s (available_streams members ts)
  <-> exists i, In i ts /\ stream_of_transcoding members i = Some s.
Proof.
  induction ts as [|i ts IH]; cbn.
  - split; [contradiction|]. intros (i & [] & _).
  - destruct (stream_of_transcoding members i) as [s'|] eqn:E; cbn; rewrite IH.
    + split.
      * intros [<-|(j & Hj & Ej)]; eauto.
      * intros (j & [<-|Hj] & Ej); [left; congruence|right; eauto].
    + split.
      * intros (j & Hj & Ej); eauto.
      * intros (j & [<-|Hj] & Ej); [congruence|eauto].
Qed.

Lemma available_streams_app (members : string -> bool) (l1 l2 : list transcoding) :
  available_streams members (l1 ++ l2)%list
  = (available_streams members l1 ++ available_streams members l2)%list.
Proof.
  induction l1 as [|i l1 IH]; cbn; [reflexivity|].
  destruct (stream_of_transcoding members i); cbn; now rewrite IH.
Qed.

Lemma available_streams_perm (members : string -> bool) (ts ts' : list transcoding) :
  Permutation ts ts' ->
  Permutation (available_streams members ts) (available_streams members ts').
Proof.
  induction 1 as [|i l l' _ IH|i j l|l l' l'' _ IH1 _ IH2]; cbn.
  - constructor.
  - destruct (stream_of_transcoding members i); [now constructor|exact IH].
  - destruct (stream_of_transcoding members i), (stream_of_transcoding members j);
      try reflexivity. apply perm_swap.
  - now transitivity (available_streams members l').
Qed.

Lemma available_unencrypted (members : string -> bool) (ts : list transcoding) (s : stream) :
  In s (available_streams members ts) -> is_encrypted s = false /\ 0 <= quality s.
Proof.
  intros H. apply in_available_streams in H. destruct H as (i & _ & E).
  destruct (is_encrypted_hls_of i) eqn:He.
  - rewrite (encrypted_never_retained members i He) in E. discriminate.
  - apply stream_of_transcoding_some in E. destruct E as (_ & _ & Hq & -> & _).
    cbn. auto.
Qed.

Lemma best_stream_some (members : string -> bool) (ts : list transcoding) (b : stream) :
  best_stream members ts = Some b ->
  In b (available_streams members ts)
  /\ forall x, In x (available_streams members ts) -> ranked_ge b x.
Proof.
  unfold best_stream.
  destruct (sort_desc (available_streams members ts)) as [|h t] eqn:E; [discriminate|].
  intros [= <-]. exact (sort_desc_head _ _ _ E).
Qed.

Lemma best_stream_none (members : string -> bool) (ts : list transcoding) :
  best_stream members ts = None <-> available_streams members ts = [].
Proof.
  unfold best_stream. split.
  - destruct (sort_desc (available_streams members ts)) eqn:E; [|discriminate].
    intros _. now apply sort_desc_nil.
  - now intros ->.
Qed.

(** ** C1, C6 and C10: encrypted and unrecognised transcodings *)

(** C1 (the code departs from the claim).  An encrypted HLS transcoding is
    never retained, so for a track whose only transcoding is an encrypted
    HLS stream with a URL nothing is selected and the diagnostic is the
    generic one; the DRM diagnostic is produced for no track at all. *)
Theorem encrypted_only_track_reports_none_usable :
  forall members : string -> bool,
    available_streams members [encrypted_transcoding] = []
    /\ get_track_info members encrypted_only_track "" ""
       = {| file_url := None; download_url := None; final_codec := "AAC";
            error := Some none_usable_error; final_is_hls_stream := false |}
    /\ forall td redirectUri content_type_header,
         is_DRM_error (error (get_track_info members td redirectUri content_type_header))
         = false.
Proof.
  intros members.
  assert (E : available_streams members [encrypted_transcoding] = []).
  { cbn [available_streams].
    now rewrite (encrypted_never_retained members encrypted_transcoding eq_refl). }
  split; [exact E|]. split.
  - unfold get_track_info, best_stream. cbn [downloadable has_downloads_left streamable
      transcodings encrypted_only_track andb]. rewrite E. reflexivity.
  - intros td u ct. unfold get_track_info.
    destruct (downloadable td && has_downloads_left td).
    { destruct (members (codec_str_of ct)); reflexivity. }
    destruct (streamable td); [|reflexivity].
    destruct (transcodings td) as [|i ts] eqn:Et; [reflexivity|].
    destruct (best_stream members (i :: ts)) as [b|] eqn:Eb; [|reflexivity].
    apply best_stream_some in Eb. destruct Eb as [Hb _].
    apply available_unencrypted in Hb. destruct Hb as [-> _].
    cbn [error]. destruct (0 <? quality b); reflexivity.
Qed.

(** C6.  When some transcoding of recognised codec has a URL and a
    non-negative quality score, a stream is selected and it is not an
    encrypted one, whatever the presets of the encrypted transcodings. *)
Theorem encrypted_never_selected (members : string -> bool) (ts : list transcoding) :
  (exists i, In i ts
             /\ members (stream_codec_name_of (tr_preset i)) = true
             /\ url_truthy (tr_url i) = true
             /\ 0 <= quality_score_of i) ->
  exists b, best_stream members ts = Some b
            /\ is_encrypted b = false
            /\ 0 <= quality b.
Proof.
  intros (i & Hi & Hm & Hu & Hq).
  destruct (stream_of_transcoding_retained members i Hm Hu Hq) as [s Es].
  assert (Hs : In s (available_streams members ts))
    by (apply in_available_streams; eauto).
  destruct (best_stream members ts) as [b|] eqn:Eb.
  - exists b. split; [reflexivity|].
    apply best_stream_some in Eb. destruct Eb as [Hb _].
    exact (available_unencrypted members ts b Hb).
  - apply best_stream_none in Eb. rewrite Eb in Hs. contradiction.
Qed.

Lemma encrypted_never_selected_witness :
  exists b, best_stream known_codec [encrypted_transcoding; mp3_first] = Some b
            /\ is_encrypted b = false
            /\ 0 <= quality b.
Proof.
  apply (encrypted_never_selected known_codec [encrypted_transcoding; mp3_first]).
  exists mp3_first. split; [right; left; reflexivity|].
  split; [reflexivity|]. split; [reflexivity|]. vm_compute. discriminate.
Defined.

(** C10.  A transcoding whose preset does not begin with the name of a
    codec is left out of the selection, whatever its URL and protocol, and
    when nothing else is retained the diagnostic is the one for no usable
    transcoding. *)
Theorem unrecognised_codec_excluded
    (members : string -> bool) (ts1 ts2 : list transcoding) (i : transcoding) :
  members (stream_codec_name_of (tr_preset i)) = false ->
  stream_of_transcoding members i = None
  /\ available_streams members (ts1 ++ i :: ts2)%list
     = available_streams members (ts1 ++ ts2)%list
  /\ best_stream members (ts1 ++ i :: ts2)%list = best_stream members (ts1 ++ ts2)%list
  /\ forall td redirectUri content_type_header,
       downloadable td && has_downloads_left td = false ->
       streamable td = true ->
       transcodings td = (ts1 ++ i :: ts2)%list ->
       available_streams members (ts1 ++ ts2)%list = [] ->
       get_track_info members td redirectUri content_type_header
       = {| file_url := None; download_url := None; final_codec := "AAC";
            error := Some none_usable_error; final_is_hls_stream := false |}.
Proof.
  intros Hm.
  assert (Ei : stream_of_transcoding members i = None)
    by (unfold stream_of_transcoding; now rewrite Hm).
  assert (Ea : available_streams members (ts1 ++ i :: ts2)%list
               = available_streams members (ts1 ++ ts2)%list).
  { rewrite !available_streams_app. cbn [available_streams]. now rewrite Ei. }
  split; [exact Ei|]. split; [exact Ea|]. split.
  - unfold best_stream. now rewrite Ea.
  - intros td u ct Hd Hst Ht Hnil. unfold get_track_info.
    rewrite Hd, Hst, Ht.
    destruct (ts1 ++ i :: ts2)%list as [|j l] eqn:El.
    + destruct ts1; discriminate El.
    + unfold best_stream. rewrite Ea, Hnil. reflexivity.
Qed.

Lemma unrecognised_codec_excluded_witness :
  stream_of_transcoding known_codec abr_transcoding = None
  /\ available_streams known_codec [abr_transcoding]
     = available_streams known_codec []
  /\ best_stream known_codec [abr_transcoding] = best_stream known_codec []
  /\ forall td redirectUri content_type_header,
       downloadable td && has_downloads_left td = false ->
       streamable td = true ->
       transcodings td = [abr_transcoding] ->
       available_streams known_codec [] = [] ->
       get_track_info known_codec td redirectUri content_type_header
       = {| file_url := None; download_url := None; final_codec := "AAC";
            error := Some none_usable_error; final_is_hls_stream := false |}.
Proof.
  apply (unrecognised_codec_excluded known_codec [] [] abr_transcoding).
  reflexivity.
Defined.

(** ** C2 and C5: the order of the candidates *)

(** C2, the claim as it stands: permuting the transcodings never changes
    the selected URL, codec and protocol.  Refuted by two transcodings with
    the same preset and protocol: the sort is stable, so the one listed
    first is selected. *)
Lemma selection_depends_on_order :
  ~ (forall ts ts', Permutation ts ts' ->
       option_map selected_view (best_stream known_codec ts)
       = option_map selected_view (best_stream known_codec ts')).
Proof.
  intros H.
  specialize (H [mp3_first; mp3_second] [mp3_second; mp3_first] (perm_swap _ _ _)).
  vm_compute in H. discriminate H.
Qed.

(** C2, amended.  Permuting the transcodings leaves the quality score and
    the preference score of the selected stream unchanged, and whether a
    stream is selected at all; it leaves the selected stream itself
    unchanged when no other retained stream has both scores equal to those
    of the selected one.  Among the retained streams that share the largest
    scores the one listed first is selected, the sort being stable. *)
Theorem selection_under_permutation
    (members : string -> bool) (ts ts' : list transcoding) :
  Permutation ts ts' ->
  option_map sort_key (best_stream members ts)
  = option_map sort_key (best_stream members ts')
  /\ (forall b,
        best_stream members ts = Some b ->
        (forall x, In x (available_streams members ts) ->
                   quality x = quality b -> preference x = preference b -> x = b) ->
        best_stream members ts' = Some b)
  /\ (forall b,
        best_stream members ts = Some b ->
        exists l1 l2,
          available_streams members ts = (l1 ++ b :: l2)%list
          /\ (forall x, In x l1 ->
                quality x < quality b
                \/ (quality x = quality b /\ preference x < preference b))
          /\ (forall x, In x l2 ->
                quality x < quality b
                \/ (quality x = quality b /\ preference x <= preference b))).
Proof.
  intros P. pose proof (available_streams_perm members ts ts' P) as PA.
  assert (Hkey : forall b b',
             best_stream members ts = Some b -> best_stream members ts' = Some b' ->
             sort_key b = sort_key b' /\ In b' (available_streams members ts)).
  { intros b b' Eb Eb'. apply best_stream_some in Eb, Eb'.
    destruct Eb as [Hb Hmax], Eb' as [Hb' Hmax'].
    assert (Hb2 : In b' (available_streams members ts))
      by exact (Permutation_in _ (Permutation_sym PA) Hb').
    assert (Hb3 : In b (available_streams members ts'))
      by exact (Permutation_in _ PA Hb).
    split; [|exact Hb2].
    exact (ranked_ge_antisym b b' (Hmax b' Hb2) (Hmax' b Hb3)). }
  assert (Hsome : forall b, best_stream members ts = Some b ->
                            exists b', best_stream members ts' = Some b').
  { intros b Eb. destruct (best_stream members ts') as [b'|] eqn:Eb'; [eauto|].
    exfalso. apply best_stream_none in Eb'. apply best_stream_some in Eb.
    destruct Eb as [Hb _]. apply (Permutation_in _ PA) in Hb.
    rewrite Eb' in Hb. contradiction. }
  split; [|split].
  - destruct (best_stream members ts) as [b|] eqn:Eb.
    + destruct (Hsome b eq_refl) as [b' Eb']. rewrite Eb'.
      destruct (Hkey b b' eq_refl Eb') as [K _]. cbn. now rewrite K.
    + destruct (best_stream members ts') as [b'|] eqn:Eb'; [|reflexivity].
      exfalso. apply best_stream_none in Eb. apply best_stream_some in Eb'.
      destruct Eb' as [Hb _]. apply (Permutation_in _ (Permutation_sym PA)) in Hb.
      rewrite Eb in Hb. contradiction.
  - intros b Eb Huniq. destruct (Hsome b Eb) as [b' Eb'].
    destruct (Hkey b b' Eb Eb') as [K Hin]. rewrite Eb'. f_equal.
    unfold sort_key in K. injection K as Kq Kp.
    apply Huniq; [exact Hin| |]; congruence.
  - intros b Eb. unfold best_stream in Eb.
    destruct (sort_desc (available_streams members ts)) as [|h t] eqn:E;
      [discriminate|].
    injection Eb as ->.
    destruct (sort_desc_first_of_best _ _ _ E) as (l1 & l2 & El & H1 & H2).
    exists l1, l2. split; [exact El|]. split.
    + intros x Hx. specialize (H1 x Hx). apply key_ltb_true in H1. exact H1.
    + intros x Hx. specialize (H2 x Hx). unfold ranked_ge in H2.
      apply key_ltb_false in H2. unfold sort_key in H2. cbn in H2. lia.
Qed.

Lemma selection_under_permutation_witness :
  option_map sort_key (best_stream known_codec [mp3_first; mp3_second; aac_hls_128])
  = option_map sort_key (best_stream known_codec [aac_hls_128; mp3_second; mp3_first])
  /\ best_stream known_codec [aac_hls_128; mp3_second; mp3_first] = Some aac_hls_stream.
Proof.
  destruct (selection_under_permutation known_codec
              [mp3_first; mp3_second; aac_hls_128]
              [aac_hls_128; mp3_second; mp3_first]) as (H1 & H2 & _).
  - apply Permutation_rev.
  - split; [exact H1|]. apply H2; [reflexivity|].
    intros x Hx Hq Hp. vm_compute in Hx.
    destruct Hx as [<-|[<-|[<-|[]]]]; vm_compute in Hp;
      try discriminate Hp; reflexivity.
Defined.

(** C5.  Of two retained streams with equal quality score, the one with the
    higher preference score is ranked ahead of the other: a stream is
    selected, it is the head of the ranking, it is ranked no lower than the
    higher-preference stream, it is not the lower-preference one, and it is
    the higher-preference stream itself when every other retained stream
    has smaller scores.  The preference score is read from the fixed table
    HLS-AAC 5, HLS-Opus 4, progressive Opus 3, progressive AAC 2,
    progressive MP3 1, HLS-MP3 0, anything else 0. *)
Theorem equal_quality_ranked_by_preference
    (members : string -> bool) (ts : list transcoding) (a b : stream) :
  In a (available_streams members ts) ->
  In b (available_streams members ts) ->
  quality a = quality b ->
  preference b < preference a ->
  (exists l1 l2 l3,
     sort_desc (available_streams members ts) = (l1 ++ a :: l2 ++ b :: l3)%list)
  /\ (exists s rest,
        best_stream members ts = Some s
        /\ sort_desc (available_streams members ts) = s :: rest
        /\ (quality a < quality s
            \/ (quality a = quality s /\ preference a <= preference s)))
  /\ best_stream members ts <> Some b
  /\ ((forall x, In x (available_streams members ts) ->
         x = a \/ quality x < quality a
         \/ (quality x = quality a /\ preference x < preference a)) ->
      best_stream members ts = Some a)
  /\ preference a = codec_preference (codec a) (is_hls a)
  /\ preference b = codec_preference (codec b) (is_hls b)
  /\ codec_preference "AAC" true = 5
  /\ codec_preference "OPUS" true = 4
  /\ codec_preference "OPUS" false = 3
  /\ codec_preference "AAC" false = 2
  /\ codec_preference "MP3" false = 1
  /\ codec_preference "MP3" true = 0
  /\ (forall c hls, c <> "AAC" -> c <> "OPUS" -> c <> "MP3" -> codec_preference c hls = 0).
Proof.
  intros Ha Hb Hq Hp.
  assert (Hlt : ~ ranked_ge b a).
  { unfold ranked_ge. rewrite key_ltb_false. unfold sort_key. cbn. lia. }
  assert (Hpref : forall s, In s (available_streams members ts) ->
                            preference s = codec_preference (codec s) (is_hls s)).
  { intros s Hs. apply in_available_streams in Hs. destruct Hs as (i & _ & E).
    apply stream_of_transcoding_some in E. destruct E as (_ & _ & _ & -> & _).
    reflexivity. }
  assert (Hbest : exists s rest,
             best_stream members ts = Some s
             /\ sort_desc (available_streams members ts) = s :: rest
             /\ In s (available_streams members ts)
             /\ ranked_ge s a).
  { unfold best_stream.
    destruct (sort_desc (available_streams members ts)) as [|s rest] eqn:E.
    - apply sort_desc_nil in E. rewrite E in Ha. contradiction.
    - exists s, rest. destruct (sort_desc_head _ _ _ E) as [Hs Hmax].
      repeat split; auto. }
  split; [|split; [|split; [|split; [|split; [|split]]]]].
  - pose proof (sort_desc_sorted (available_streams members ts)) as S.
    pose proof (sort_desc_perm (available_streams members ts)) as P.
    assert (Ha' : In a (sort_desc (available_streams members ts)))
      by exact (Permutation_in _ (Permutation_sym P) Ha).
    assert (Hb' : In b (sort_desc (available_streams members ts)))
      by exact (Permutation_in _ (Permutation_sym P) Hb).
    destruct (in_split _ _ Ha') as (l1 & r & E). rewrite E in S, Hb'.
    apply in_app_or in Hb'. destruct Hb' as [Hb'|[Hb'|Hb']].
    + exfalso. destruct (in_split _ _ Hb') as (m1 & m2 & E1). subst l1.
      rewrite <- app_assoc in S. cbn [app] in S.
      apply sorted_after in S. rewrite Forall_forall in S.
      apply Hlt, S. apply in_or_app. right. now left.
    + exfalso. subst b. lia.
    + destruct (in_split _ _ Hb') as (l2 & l3 & E2). subst r.
      exists l1, l2, l3. exact E.
  - destruct Hbest as (s & rest & Es & Eh & _ & Hge).
    exists s, rest. split; [exact Es|]. split; [exact Eh|].
    unfold ranked_ge in Hge. apply key_ltb_false in Hge.
    unfold sort_key in Hge. cbn in Hge. lia.
  - intros Eb. apply best_stream_some in Eb. destruct Eb as [_ Hmax].
    exact (Hlt (Hmax a Ha)).
  - intros Htop. destruct Hbest as (s & rest & Es & _ & Hs & Hge).
    rewrite Es. f_equal.
    destruct (Htop s Hs) as [E|Hsmall]; [exact E|].
    exfalso. unfold ranked_ge in Hge. apply key_ltb_false in Hge.
    unfold sort_key in Hge. cbn in Hge. lia.
  - exact (Hpref a Ha).
  - exact (Hpref b Hb).
  - repeat (split; [reflexivity|]).
    intros c hls H1 H2 H3. unfold codec_preference.
    apply String.eqb_neq in H1, H2, H3. now rewrite H1, H2, H3.
Qed.

Lemma equal_quality_ranked_by_preference_witness :
  (exists l1 l2 l3,
     sort_desc (available_streams known_codec [aac_progressive_128; aac_hls_128])
     = (l1 ++ aac_hls_stream :: l2 ++ aac_progressive_stream :: l3)%list)
  /\ best_stream known_codec [aac_progressive_128; aac_hls_128] = Some aac_hls_stream
  /\ best_stream known_codec [aac_progressive_128; aac_hls_128]
     <> Some aac_progressive_stream.
Proof.
  destruct (equal_quality_ranked_by_preference known_codec
              [aac_progressive_128; aac_hls_128] aac_hls_stream aac_progressive_stream)
    as (H1 & _ & H3 & H4 & _).
  - right; left; reflexivity.
  - left; reflexivity.
  - reflexivity.
  - reflexivity.
  - split; [exact H1|]. split; [|exact H3].
    apply H4. intros x [<-|[<-|[]]].
    + right. right. split; reflexivity.
    + left. reflexivity.
Defined.

(** ** C7: the direct download path *)

Lemma replace_absent (old new s : string) :
  Text.contains old s = false -> Text.replace old new s = s.
Proof.
  unfold Text.replace. induction s as [|c s IH]; [reflexivity|].
  cbn [Text.contains Text.replace_from]. intros H.
  apply orb_false_iff in H. destruct H as [-> Hs]. now rewrite (IH Hs).
Qed.



(** ** C8 and C9: the download paths *)

Lemma not_in_remove_file (path : string) (fs : list string) :
  ~ In path (remove_file path fs).
Proof.
  unfold remove_file. intros H. apply filter_In in H. destruct H as [_ H].
  rewrite String.eqb_refl in H. discriminate H.
Qed.

Lemma in_remove_file (path f : string) (fs : list string) :
  f <> path -> In f fs -> In f (remove_file path fs).
Proof.
  intros Hne Hin. unfold remove_file. apply filter_In. split; [exact Hin|].
  apply String.eqb_neq in Hne. now rewrite Hne.
Qed.

(** Runs the monadic glue and the record projections, and nothing else. *)
Ltac run_glue :=
  cbv beta iota delta [bind ret raise try_except silentremove print
                       create_temp_filename launch _get_ffmpeg];
  cbn [files stdout tool_launches fetched temp_names fst snd].

(** C8.  On the non-HLS path, once the stream URL is resolved: for a codec
    other than AAC the call returns that URL with the authorization header
    and touches nothing (no download, no file, no launch of the tool); for
    AAC, when the asset was downloaded and the remux does not go through,
    the call still returns, with the downloaded raw file as its result and
    one warning printed. *)
Theorem non_hls_download_paths
    (E : env) (track_url download_url : option string)
    (codec track_authorization : string) (kwargs_is_hls : option bool)
    (w : world) (resolved : pyval) :
  download_is_hls track_url kwargs_is_hls = false ->
  resolve_stream_url E track_url download_url track_authorization w
  = (Returned resolved, w) ->
  (codec <> "AAC" ->
   get_track_download E track_url download_url codec track_authorization
     kwargs_is_hls w
   = (Returned (URL resolved (auth_header E)), w))
  /\ (forall extension temp_location,
        codec = "AAC" ->
        container_name E "AAC" = Some extension ->
        download_answer E resolved extension = Returned temp_location ->
        remux_ok E (PyStr temp_location) (aac_output_location E extension w) = false ->
        exists warning w',
          get_track_download E track_url download_url codec track_authorization
            kwargs_is_hls w
          = (Returned (TEMP_FILE_PATH temp_location), w')
          /\ stdout w' = (stdout w ++ [warning])%list
          /\ fetched w' = (fetched w ++ [resolved])%list
          /\ ~ In (aac_output_location E extension w) (files w')
          /\ (temp_location <> aac_output_location E extension w ->
              In temp_location (files w'))).
Proof.
  intros Hhls Hres. unfold get_track_download. rewrite Hhls.
  unfold non_hls_download. split.
  - intros Hc. apply String.eqb_neq in Hc.
    unfold bind at 1. rewrite Hres, Hc. reflexivity.
  - intros extension temp_location -> Hext Hdl Hrem.
    unfold bind at 1. rewrite Hres.
    replace (String.eqb "AAC" "AAC") with true by reflexivity.
    rewrite Hext.
    unfold bind at 1. unfold download_to_temp. rewrite Hdl.
    unfold run. run_glue.
    fold (aac_output_location E extension w).
    set (out := aac_output_location E extension w) in *.
    unfold remux_ok in Hrem.
    destruct (ffmpeg_importable E) eqn:Himp.
    + cbn [andb] in Hrem.
      destruct (ending (tool E (PyStr temp_location) out)) as [rc err|e] eqn:Hend.
      * rewrite Hrem.
        eexists. eexists. split; [reflexivity|]. run_glue.
        split; [reflexivity|]. split; [reflexivity|].
        split; [apply not_in_remove_file|].
        intros Hne. apply in_remove_file; [exact Hne|].
        destruct (wrote_output (tool E (PyStr temp_location) out));
          cbn [In]; auto.
      * eexists. eexists. split; [reflexivity|]. run_glue.
        split; [reflexivity|]. split; [reflexivity|].
        split; [apply not_in_remove_file|].
        intros Hne. apply in_remove_file; [exact Hne|].
        destruct (wrote_output (tool E (PyStr temp_location) out));
          cbn [In]; auto.
    + eexists. eexists. split; [reflexivity|]. run_glue.
      split; [reflexivity|]. split; [reflexivity|].
      split; [apply not_in_remove_file|].
      intros Hne. apply in_remove_file; [exact Hne|]. now left.
Qed.

Lemma non_hls_download_paths_witness :
  get_track_download (sample_env true failing_run) progressive_track_url None
    "MP3" "auth" None empty_world
  = (Returned (URL (PyStr "https://cf-hls-media.sndcdn.com/playlist.m3u8")
                 [("Authorization", "OAuth token")]), empty_world)
  /\ exists warning w',
       get_track_download (sample_env true failing_run) progressive_track_url None
         "AAC" "auth" None empty_world
       = (Returned (TEMP_FILE_PATH "temp/raw.m4a"), w')
       /\ stdout w' = [warning].
Proof.
  split.
  - apply (non_hls_download_paths (sample_env true failing_run)
             progressive_track_url None "MP3" "auth" None empty_world
             (PyStr "https://cf-hls-media.sndcdn.com/playlist.m3u8"));
      [reflexivity|reflexivity|discriminate].
  - destruct (non_hls_download_paths (sample_env true failing_run)
                progressive_track_url None "AAC" "auth" None empty_world
                (PyStr "https://cf-hls-media.sndcdn.com/playlist.m3u8")
                eq_refl eq_refl) as [_ H].
    destruct (H "m4a" "temp/raw.m4a" eq_refl eq_refl eq_refl eq_refl)
      as (warning & w' & Hr & Hout & _).
    exists warning, w'. split; [exact Hr|exact Hout].
Defined.

(** C9.  On the HLS path, once the playlist URL is resolved, a failure of
    the media tool (a non-zero return code or an exception) makes the call
    raise the module's error after exactly one launch of the tool, and the
    output file is not on disk when the error leaves the call.  When the
    tool's module cannot even be imported, the call raises without a launch
    and without any file written. *)
Theorem hls_tool_failure_is_terminal
    (E : env) (track_url download_url : option string)
    (codec track_authorization : string) (kwargs_is_hls : option bool)
    (w : world) (m3u8_url_resolved : pyval) :
  download_is_hls track_url kwargs_is_hls = true ->
  url_truthy track_url = true ->
  get_track_stream_link E track_url track_authorization w
  = (Returned m3u8_url_resolved, w) ->
  valid_m3u8 m3u8_url_resolved = true ->
  (ffmpeg_importable E = true ->
   tool_failed (ending (tool E m3u8_url_resolved (hls_output_location E codec w))) = true ->
   exists msg w',
     get_track_download E track_url download_url codec track_authorization
       kwargs_is_hls w
     = (Raised (ModuleError msg), w')
     /\ ~ In (hls_output_location E codec w) (files w')
     /\ tool_launches w' = S (tool_launches w))
  /\ (ffmpeg_importable E = false ->
      exists msg w',
        get_track_download E track_url download_url codec track_authorization
          kwargs_is_hls w
        = (Raised (ImportError msg), w')
        /\ files w' = files w
        /\ tool_launches w' = tool_launches w).
Proof.
  intros Hhls Hu Hres Hvalid. unfold get_track_download. rewrite Hhls.
  unfold hls_download. rewrite Hu. cbn [negb].
  split; intros Himp;
    unfold bind at 1, try_except at 1, bind at 1; rewrite Hres, Hvalid;
    unfold ret at 1; unfold run_async_communicate; run_glue;
    fold (hls_output_location E codec w);
    set (out := hls_output_location E codec w); rewrite Himp.
  - intros Hfail.
    destruct (ending (tool E m3u8_url_resolved out)) as [rc err|e] eqn:Hend.
    + cbn [tool_failed] in Hfail. rewrite Hfail.
      eexists. eexists. split; [reflexivity|]. run_glue.
      split; [apply not_in_remove_file|reflexivity].
    + destruct e; eexists; eexists; (split; [reflexivity|]); run_glue;
        (split; [apply not_in_remove_file|reflexivity]).
  - eexists. eexists. split; [reflexivity|]. run_glue. split; reflexivity.
Qed.

Lemma hls_tool_failure_is_terminal_witness :
  (exists msg w',
     get_track_download (sample_env true failing_run) hls_track_url None
       "AAC" "auth" (Some true) empty_world
     = (Raised (ModuleError msg), w')
     /\ ~ In "temp/0.m4a" (files w')
     /\ tool_launches w' = 1%nat)
  /\ (exists msg w',
        get_track_download (sample_env false failing_run) hls_track_url None
          "AAC" "auth" (Some true) empty_world
        = (Raised (ImportError msg), w')
        /\ files w' = []
        /\ tool_launches w' = 0%nat).
Proof.
  split.
  - destruct (hls_tool_failure_is_terminal (sample_env true failing_run)
                hls_track_url None "AAC" "auth" (Some true) empty_world
                (PyStr "https://cf-hls-media.sndcdn.com/playlist.m3u8")
                eq_refl eq_refl eq_refl eq_refl) as [H _].
    exact (H eq_refl eq_refl).
  - destruct (hls_tool_failure_is_terminal (sample_env false failing_run)
                hls_track_url None "AAC" "auth" (Some true) empty_world
                (PyStr "https://cf-hls-media.sndcdn.com/playlist.m3u8")
                eq_refl eq_refl eq_refl eq_refl) as [_ H].
    exact (H eq_refl).
Defined.

(** * Further properties of the selection *)

(** X1.  A transcoding is retained exactly when its codec name is
    recognised, its URL is a non-empty string and it is not an encrypted HLS
    stream: the test [quality_score >= 0] removes the encrypted streams and
    nothing else, because the score is -100 exactly for them. *)
Theorem retained_iff_recognised_url_unencrypted
    (members : string -> bool) (i : transcoding) :
  ((exists s, stream_of_transcoding members i = Some s)
   <-> (members (stream_codec_name_of (tr_preset i)) = true
        /\ url_truthy (tr_url i) = true
        /\ is_encrypted_hls_of i = false))
  /\ (quality_score_of i = -100 <-> is_encrypted_hls_of i = true)
  /\ (quality_score_of i < 0 <-> is_encrypted_hls_of i = true).
Proof.
  assert (Hneg : quality_score_of i < 0 <-> is_encrypted_hls_of i = true).
  { split.
    - intros Hq. destruct (is_encrypted_hls_of i) eqn:He; [reflexivity|].
      pose proof (unencrypted_quality_nonneg i He). lia.
    - intros He. rewrite (encrypted_quality i He). lia. }
  split; [|split; [|exact Hneg]].
  - split.
    + intros [s Hs]. destruct (is_encrypted_hls_of i) eqn:He.
      * rewrite (encrypted_never_retained members i He) in Hs. discriminate.
      * apply stream_of_transcoding_some in Hs. tauto.
    + intros (Hm & Hu & He).
      exact (stream_of_transcoding_retained members i Hm Hu
               (unencrypted_quality_nonneg i He)).
  - split.
    + intros Hq. apply Hneg. lia.
    + exact (encrypted_quality i).
Qed.

(** X2.  The selected stream is the first retained stream whose pair
    (quality score, preference score) is the largest: every retained stream
    listed before it has a strictly smaller pair, and none listed after it
    has a larger one. *)
Theorem best_stream_is_first_of_best
    (members : string -> bool) (ts : list transcoding) (b : stream) :
  best_stream members ts = Some b ->
  exists l1 l2,
    available_streams members ts = (l1 ++ b :: l2)%list
    /\ (forall x, In x l1 ->
          quality x < quality b
          \/ (quality x = quality b /\ preference x < preference b))
    /\ (forall x, In x l2 ->
          quality x < quality b
          \/ (quality x = quality b /\ preference x <= preference b)).
Proof.
  unfold best_stream.
  destruct (sort_desc (available_streams members ts)) as [|h t] eqn:E; [discriminate|].
  intros [= <-].
  destruct (sort_desc_first_of_best _ _ _ E) as (l1 & l2 & El & H1 & H2).
  exists l1, l2. split; [exact El|]. split.
  - intros x Hx. specialize (H1 x Hx). apply key_ltb_true in H1. exact H1.
  - intros x Hx. specialize (H2 x Hx). unfold ranked_ge in H2.
    apply key_ltb_false in H2. unfold sort_key in H2. cbn in H2. lia.
Qed.

Lemma best_stream_is_first_of_best_witness :
  exists l1 l2,
    available_streams known_codec [mp3_first; mp3_second; aac_hls_128]
    = (l1 ++ aac_hls_stream :: l2)%list
    /\ (forall x, In x l1 ->
          quality x < quality aac_hls_stream
          \/ (quality x = quality aac_hls_stream
              /\ preference x < preference aac_hls_stream))
    /\ (forall x, In x l2 ->
          quality x < quality aac_hls_stream
          \/ (quality x = quality aac_hls_stream
              /\ preference x <= preference aac_hls_stream)).
Proof.
  apply (best_stream_is_first_of_best known_codec
           [mp3_first; mp3_second; aac_hls_128] aac_hls_stream).
  reflexivity.
Defined.



(** X4.  What [get_track_info] hands over for a track served from its
    transcodings sends [get_track_download] down the matching path: with the
    selected URL as [track_url] and the selected protocol as [is_hls], the
    download takes the HLS path exactly when the selection was classified as
    HLS, and an HLS selection always comes with a non-empty URL. *)
Theorem download_path_agrees_with_selection
    (members : string -> bool) (td : track_data)
    (redirectUri content_type_header : string) :
  downloadable td && has_downloads_left td = false ->
  download_is_hls
    (file_url (get_track_info members td redirectUri content_type_header))
    (Some (final_is_hls_stream (get_track_info members td redirectUri content_type_header)))
  = final_is_hls_stream (get_track_info members td redirectUri content_type_header)
  /\ (final_is_hls_stream (get_track_info members td redirectUri content_type_header) = true ->
      url_truthy (file_url (get_track_info members td redirectUri content_type_header)) = true).
Proof.
  intros Hd. unfold get_track_info. rewrite Hd.
  destruct (streamable td); [|split; [reflexivity|discriminate]].
  destruct (transcodings td) as [|i0 ts0] eqn:Et; [split; [reflexivity|discriminate]|].
  destruct (best_stream members (i0 :: ts0)) as [b|] eqn:Hb;
    [|split; [reflexivity|discriminate]].
  cbn [file_url final_is_hls_stream].
  pose proof (best_stream_some members _ b Hb) as [Hin _].
  apply in_available_streams in Hin. destruct Hin as (i & _ & Ei).
  apply stream_of_transcoding_some in Ei. destruct Ei as (_ & Hu & _ & Eb & Eu).
  assert (Eh : is_hls b = is_hls_of i) by (rewrite Eb; reflexivity).
  rewrite Eu in Hu. split; [|intros _; exact Hu].
  unfold download_is_hls. destruct (is_hls b) eqn:Hh; [reflexivity|].
  symmetry in Eh. unfold is_hls_of in Eh. apply orb_false_iff in Eh.
  destruct Eh as [_ Eh]. rewrite Eu in Eh.
  unfold url_has_marker, hls_markers, download_markers in *.
  cbn [existsb] in *.
  repeat (apply orb_false_iff in Eh; destruct Eh as [? Eh]).
  repeat (apply orb_false_iff; split); assumption.
Qed.

Lemma download_path_agrees_with_selection_witness :
  download_is_hls
    (file_url (get_track_info known_codec (streaming_track [mp3_first; aac_hls_128]) "" ""))
    (Some (final_is_hls_stream
             (get_track_info known_codec (streaming_track [mp3_first; aac_hls_128]) "" "")))
  = true.
Proof.
  destruct (download_path_agrees_with_selection known_codec
              (streaming_track [mp3_first; aac_hls_128]) "" "" eq_refl) as [H _].
  exact H.
Defined.

(** ** Further properties of the download *)

Lemma split_str_absent (sep t : string) :
  Text.contains sep t = false -> Text.split_str sep t = [t].
Proof.
  unfold Text.split_str. induction t as [|c t IH]; [reflexivity|].
  cbn [Text.contains Text.split_from]. intros H.
  apply orb_false_iff in H. destruct H as [-> Ht]. now rewrite (IH Ht).
Qed.

Lemma get_track_stream_link_world (E : env) (u : option string) (a : string) (w : world) :
  snd (get_track_stream_link E u a w) = w.
Proof.
  unfold get_track_stream_link, raise.
  destruct u as [s|]; [|reflexivity].
  destruct (String.eqb s ""); [reflexivity|].
  destruct (negb (Text.contains api_base s)); reflexivity.
Qed.

Lemma resolve_stream_url_world (E : env) (u d : option string) (a : string) (w : world) :
  snd (resolve_stream_url E u d a w) = w.
Proof.
  unfold resolve_stream_url.
  destruct d as [s|]; [destruct (String.eqb s "")|];
    try apply get_track_stream_link_world. reflexivity.
Qed.



Ltac bounded :=
  run_glue; cbn [snd fst]; run_glue;
  let Hc := fresh "Hc" in
  intros Hc; injection Hc as _ <-;
  run_glue; rewrite ?length_app; cbn [length]; lia.

Ltac tool_cases E :=
  run_glue; destruct (ffmpeg_importable E); run_glue;
  [ destruct (ending _) as [rc err|e]; run_glue;
    [ destruct (rc =? 0); cbn [negb]; run_glue | destruct e; run_glue ]
  | ].

(** X6.  Whatever the answers of the network and of the media tool, one
    call of [get_track_download] launches the tool at most once, prints at
    most one line, downloads at most one asset and takes at most one
    temporary name. *)
Theorem download_effects_bounded
    (E : env) (track_url download_url : option string)
    (codec track_authorization : string) (kwargs_is_hls : option bool) (w : world) :
  (tool_launches (snd (get_track_download E track_url download_url codec
                         track_authorization kwargs_is_hls w))
   <= S (tool_launches w))%nat
  /\ (length (stdout (snd (get_track_download E track_url download_url codec
                             track_authorization kwargs_is_hls w)))
      <= S (length (stdout w)))%nat
  /\ (length (fetched (snd (get_track_download E track_url download_url codec
                              track_authorization kwargs_is_hls w)))
      <= S (length (fetched w)))%nat
  /\ (temp_names (snd (get_track_download E track_url download_url codec
                         track_authorization kwargs_is_hls w))
      <= S (temp_names w))%nat.
Proof.
  destruct (get_track_download E track_url download_url codec
              track_authorization kwargs_is_hls w) as [res w'] eqn:Hcall.
  cbn [snd]. revert Hcall. unfold get_track_download.
  destruct (download_is_hls track_url kwargs_is_hls).
  - unfold hls_download.
    destruct (negb (url_truthy track_url)); [bounded|].
    unfold bind at 1, try_except at 1, bind at 1.
    pose proof (get_track_stream_link_world E track_url track_authorization w) as Hw.
    destruct (get_track_stream_link E track_url track_authorization w) as [r w1].
    cbn [snd] in Hw. subst w1.
    destruct r as [m|e]; [|bounded].
    destruct (valid_m3u8 m); [|bounded].
    unfold run_async_communicate.
    tool_cases E; bounded.
  - unfold non_hls_download.
    unfold bind at 1.
    pose proof (resolve_stream_url_world E track_url download_url
                  track_authorization w) as Hw.
    destruct (resolve_stream_url E track_url download_url track_authorization w)
      as [r w1].
    cbn [snd] in Hw. subst w1.
    destruct r as [resolved|e]; [|bounded].
    destruct (String.eqb codec "AAC"); [|bounded].
    destruct (container_name E codec) as [extension|]; [|bounded].
    unfold bind at 1, download_to_temp.
    destruct (download_answer E resolved extension) as [temp_location|e];
      [|bounded].
    unfold run.
    tool_cases E; bounded.
Qed.

(** X7.  On the HLS path, when the playlist URL resolves to a valid URL,
    the tool's module imports and the tool exits with code 0, the call
    returns the output location as a temporary file after exactly one
    launch, prints nothing and downloads nothing itself. *)
Theorem hls_success_returns_output
    (E : env) (track_url download_url : option string)
    (codec track_authorization : string) (kwargs_is_hls : option bool)
    (w : world) (m3u8_url_resolved : pyval) (err : string) :
  download_is_hls track_url kwargs_is_hls = true ->
  url_truthy track_url = true ->
  get_track_stream_link E track_url track_authorization w
  = (Returned m3u8_url_resolved, w) ->
  valid_m3u8 m3u8_url_resolved = true ->
  ffmpeg_importable E = true ->
  ending (tool E m3u8_url_resolved (hls_output_location E codec w)) = Exit 0 err ->
  get_track_download E track_url download_url codec track_authorization
    kwargs_is_hls w
  = (Returned (TEMP_FILE_PATH (hls_output_location E codec w)),
     {| files :=
          if wrote_output (tool E m3u8_url_resolved (hls_output_location E codec w))
          then hls_output_location E codec w :: files w else files w;
        stdout := stdout w;
        tool_launches := S (tool_launches w);
        fetched := fetched w;
        temp_names := S (temp_names w) |}).
Proof.
  intros Hhls Hu Hres Hvalid Himp Hend. unfold get_track_download. rewrite Hhls.
  unfold hls_download. rewrite Hu. cbn [negb].
  unfold bind at 1, try_except at 1, bind at 1. rewrite Hres, Hvalid.
  unfold ret at 1. unfold run_async_communicate. run_glue.
  fold (hls_output_location E codec w). rewrite Himp, Hend. reflexivity.
Qed.

Lemma hls_success_returns_output_witness :
  get_track_download
    (sample_env true {| wrote_output := true; ending := Exit 0 "" |})
    hls_track_url None "AAC" "auth" (Some true) empty_world
  = (Returned (TEMP_FILE_PATH "temp/0.m4a"),
     {| files := ["temp/0.m4a"]; stdout := []; tool_launches := 1;
        fetched := []; temp_names := 1 |}).
Proof.
  apply (hls_success_returns_output
           (sample_env true {| wrote_output := true; ending := Exit 0 "" |})
           hls_track_url None "AAC" "auth" (Some true) empty_world
           (PyStr "https://cf-hls-media.sndcdn.com/playlist.m3u8") "");
    reflexivity.
Defined.

(** X8.  On the HLS path the call raises the module's error, and leaves
    disk, tool and output untouched, when the URL is missing, when the
    playlist URL cannot be resolved, and when what was resolved is not a
    string starting with [http]; in the last two cases the message is
    prefixed with [HLS_M3U8_RESOLUTION_ERROR], the invalid-URL error being
    wrapped like any other. *)
Theorem hls_fails_before_the_tool
    (E : env) (track_url download_url : option string)
    (codec track_authorization : string) (kwargs_is_hls : option bool) (w : world) :
  download_is_hls track_url kwargs_is_hls = true ->
  (url_truthy track_url = false ->
   get_track_download E track_url download_url codec track_authorization
     kwargs_is_hls w
   = (Raised (ModuleError
                "HLS stream URL not found in get_track_download (is_hls path)"), w))
  /\ (forall e,
        url_truthy track_url = true ->
        get_track_stream_link E track_url track_authorization w = (Raised e, w) ->
        get_track_download E track_url download_url codec track_authorization
          kwargs_is_hls w
        = (Raised (ModuleError
                     ("HLS_M3U8_RESOLUTION_ERROR: Failed to resolve M3U8 stream link: "
                      ++ exn_str e)), w))
  /\ (forall m,
        url_truthy track_url = true ->
        get_track_stream_link E track_url track_authorization w = (Returned m, w) ->
        valid_m3u8 m = false ->
        get_track_download E track_url download_url codec track_authorization
          kwargs_is_hls w
        = (Raised (ModuleError
                     ("HLS_M3U8_RESOLUTION_ERROR: Failed to resolve M3U8 stream link: "
                      ++ "HLS_INVALID_M3U8_URL: Resolved M3U8 URL is invalid: "
                      ++ py_str m)), w)).
Proof.
  intros Hhls. unfold get_track_download. rewrite Hhls. unfold hls_download.
  split; [|split].
  - intros ->. reflexivity.
  - intros e -> Hres. cbn [negb].
    unfold bind at 1, try_except at 1, bind at 1. rewrite Hres. reflexivity.
  - intros m -> Hres Hm. cbn [negb].
    unfold bind at 1, try_except at 1, bind at 1. rewrite Hres, Hm. reflexivity.
Qed.

Lemma hls_fails_before_the_tool_witness :
  get_track_download (sample_env true failing_run) None None "AAC" "auth"
    (Some true) empty_world
  = (Raised (ModuleError
               "HLS stream URL not found in get_track_download (is_hls path)"),
     empty_world)
  /\ get_track_download (sample_env true failing_run)
       (Some "https://soundcloud.com/x.m3u8") None "AAC" "auth" None empty_world
     = (Raised (ModuleError
                  "HLS_M3U8_RESOLUTION_ERROR: Failed to resolve M3U8 stream link: Invalid stream URL. This track may not be available."),
        empty_world).
Proof.
  split.
  - destruct (hls_fails_before_the_tool (sample_env true failing_run) None None
                "AAC" "auth" (Some true) empty_world eq_refl) as [H _].
    exact (H eq_refl).
  - destruct (hls_fails_before_the_tool (sample_env true failing_run)
                (Some "https://soundcloud.com/x.m3u8") None
                "AAC" "auth" None empty_world eq_refl) as (_ & H & _).
    exact (H (ModuleError "Invalid stream URL. This track may not be available.")
             eq_refl eq_refl).
Defined.

(** X9.  On the non-HLS path with codec AAC, when the asset is downloaded
    and the remux goes through, the call returns the remuxed file, the raw
    download is deleted, nothing is printed and the tool was launched
    once. *)
Theorem aac_remux_success
    (E : env) (track_url download_url : option string)
    (track_authorization : string) (kwargs_is_hls : option bool)
    (w : world) (resolved : pyval) (extension temp_location : string) :
  download_is_hls track_url kwargs_is_hls = false ->
  resolve_stream_url E track_url download_url track_authorization w
  = (Returned resolved, w) ->
  container_name E "AAC" = Some extension ->
  download_answer E resolved extension = Returned temp_location ->
  remux_ok E (PyStr temp_location) (aac_output_location E extension w) = true ->
  exists w',
    get_track_download E track_url download_url "AAC" track_authorization
      kwargs_is_hls w
    = (Returned (TEMP_FILE_PATH (aac_output_location E extension w)), w')
    /\ stdout w' = stdout w
    /\ ~ In temp_location (files w')
    /\ tool_launches w' = S (tool_launches w)
    /\ fetched w' = (fetched w ++ [resolved])%list.
Proof.
  intros Hhls Hres Hext Hdl Hrem. unfold get_track_download. rewrite Hhls.
  unfold non_hls_download. unfold bind at 1. rewrite Hres.
  replace (String.eqb "AAC" "AAC") with true by reflexivity.
  rewrite Hext. unfold bind at 1. unfold download_to_temp. rewrite Hdl.
  unfold run. run_glue.
  fold (aac_output_location E extension w).
  set (out := aac_output_location E extension w) in *.
  unfold remux_ok in Hrem. apply andb_true_iff in Hrem. destruct Hrem as [Himp Hend].
  rewrite Himp.
  destruct (ending (tool E (PyStr temp_location) out)) as [rc err|e];
    [|discriminate Hend].
  rewrite Hend.
  eexists. split; [reflexivity|]. run_glue.
  split; [reflexivity|]. split; [apply not_in_remove_file|]. split; reflexivity.
Qed.

Lemma aac_remux_success_witness :
  exists w',
    get_track_download
      (sample_env true {| wrote_output := true; ending := Exit 0 "" |})
      progressive_track_url None "AAC" "auth" None empty_world
    = (Returned (TEMP_FILE_PATH "temp/0.m4a"), w')
    /\ stdout w' = []
    /\ ~ In "temp/raw.m4a" (files w')
    /\ tool_launches w' = 1%nat
    /\ fetched w' = [PyStr "https://cf-hls-media.sndcdn.com/playlist.m3u8"].
Proof.
  apply (aac_remux_success
           (sample_env true {| wrote_output := true; ending := Exit 0 "" |})
           progressive_track_url None "auth" None empty_world
           (PyStr "https://cf-hls-media.sndcdn.com/playlist.m3u8")
           "m4a" "temp/raw.m4a"); reflexivity.
Defined.





(** * Metadata helpers *)

Lemma digit_not_space (c : ascii) : Text.is_digit c = true -> Text.is_space c = false.
Proof.
  unfold Text.is_digit, Text.is_space. intros H.
  apply andb_true_iff in H. destruct H as [H1 H2].
  apply Nat.leb_le in H1, H2.
  apply orb_false_iff. split.
  - apply andb_false_iff. right. apply Nat.leb_gt. lia.
  - apply Nat.eqb_neq. lia.
Qed.

Lemma rstrip_digits (ds : string) : Text.all_digits ds = true -> Text.rstrip ds = ds.
Proof.
  induction ds as [|c ds IH]; [reflexivity|].
  cbn [Text.all_digits Text.rstrip]. intros H.
  apply andb_true_iff in H. destruct H as [Hc Hs]. rewrite (IH Hs).
  destruct ds; [|reflexivity]. now rewrite (digit_not_space c Hc).
Qed.

Lemma literal_digits_all (s : string) :
  forall p acc,
    Text.all_digits s = true -> (s <> "" \/ p = true) ->
    Text.literal_digits p acc s = Some (Text.digits_value acc s).
Proof.
  induction s as [|c s IH]; intros p acc Hs Hp.
  - destruct Hp as [Hp| ->]; [contradiction|reflexivity].
  - cbn [Text.all_digits Text.literal_digits Text.digits_value] in *.
    apply andb_true_iff in Hs. destruct Hs as [-> Hs].
    apply IH; [exact Hs|now right].
Qed.

(** On a run of digits the two readings of [int] agree. *)
Lemma count_digits_all (ds : string) :
  Text.all_digits ds = true -> Text.count_digits ds = String.length ds.
Proof.
  induction ds as [|c ds IH]; [reflexivity|].
  cbn [Text.all_digits Text.count_digits String.length]. intros H.
  apply andb_true_iff in H. destruct H as [-> Hs]. now rewrite (IH Hs).
Qed.

Lemma strip_digits (ds : string) : Text.isdigit ds = true -> Text.strip ds = ds.
Proof.
  intros H. pose proof (isdigit_all_digits ds H) as Ha.
  destruct ds as [|c ds]; [discriminate|].
  assert (Hc : Text.is_digit c = true).
  { cbn [Text.all_digits] in Ha. now apply andb_true_iff in Ha. }
  unfold Text.strip. cbn [Text.lstrip].
  now rewrite (digit_not_space c Hc), (rstrip_digits _ Ha).
Qed.

(** On a run of digits the two readings of [int] agree. *)
Lemma int_literal_is_int (ds : string) :
  Text.isdigit ds = true -> Text.int_literal ds = Text.int ds.
Proof.
  intros H. pose proof (isdigit_all_digits ds H) as Ha.
  unfold Text.int_literal, Text.int. cbv zeta.
  rewrite (strip_digits ds H), (count_digits_all ds Ha), H. cbn [andb].
  destruct (Text.within_digit_limit (String.length ds)); [|reflexivity].
  destruct ds as [|c ds]; [discriminate|].
  assert (Hc : Text.is_digit c = true).
  { cbn [Text.all_digits] in Ha. now apply andb_true_iff in Ha. }
  destruct (Ascii.eqb_spec c "+") as [->|_]; [discriminate Hc|].
  destruct (Ascii.eqb_spec c "-") as [->|_]; [discriminate Hc|].
  apply literal_digits_all; [exact Ha|left; discriminate].
Qed.

Lemma int_literal_digits (ds : string) :
  Text.isdigit ds = true ->
  Text.within_digit_limit (String.length ds) = true ->
  Text.int_literal ds = Some (Text.digits_value 0 ds).
Proof.
  intros H Hl. rewrite (int_literal_is_int ds H). exact (int_of_isdigit ds H Hl).
Qed.

Lemma contains_char_digits (sep : ascii) (ds : string) :
  Text.is_digit sep = false ->
  Text.all_digits ds = true -> Text.contains (String sep "") ds = false.
Proof.
  intros Hsep. induction ds as [|c ds IH]; [reflexivity|].
  cbn [Text.all_digits Text.contains]. intros H.
  apply andb_true_iff in H. destruct H as [Hc Hs].
  rewrite (IH Hs), orb_false_r. cbn [Text.startswith].
  rewrite andb_true_r. destruct (Ascii.eqb_spec sep c) as [->|]; [|reflexivity].
  congruence.
Qed.

Lemma split_at_first (sep : ascii) (a t : string) :
  Text.contains (String sep "") a = false ->
  Text.split sep (a ++ String sep t) = a :: Text.split sep t.
Proof.
  induction a as [|c a IH].
  - intros _. cbn [append Text.split]. now rewrite Ascii.eqb_refl.
  - cbn [Text.contains append Text.split Text.startswith]. intros H.
    apply orb_false_iff in H. destruct H as [Hc Ha].
    rewrite andb_true_r in Hc. rewrite Ascii.eqb_sym in Hc. rewrite Hc.
    now rewrite (IH Ha).
Qed.

Lemma year_of_date (y rest : string) :
  Text.isdigit y = true ->
  hd "" (Text.split "-" (y ++ "-" ++ rest)) = y.
Proof.
  intros H.
  change (y ++ "-" ++ rest) with (y ++ String "-" rest).
  rewrite split_at_first
    by (apply contains_char_digits; [reflexivity|now apply isdigit_all_digits]).
  reflexivity.
Qed.

Lemma nonempty_truthy (t : string) : t <> "" -> url_truthy (Some t) = true.
Proof. intros H. cbn. apply String.eqb_neq in H. now rewrite H. Qed.

(** X12.  [get_release_year] takes the first of [release_date],
    [display_date], [created_at] that holds a non-empty text, whatever the
    later ones hold, and returns [int] of what precedes the first [-] of
    that text: the year when the text is a run of digits, or starts with
    one followed by [-], the digits being no more than [int] converts.  It
    fails with [ValueError] when none of the three holds a non-empty text,
    when the chosen text starts with [-], and when the digits are more than
    [int] converts. *)
Theorem release_year_by_priority :
  (forall t display_date created_at,
     t <> "" ->
     get_release_year (Some t) display_date created_at
     = Text.int_literal (hd "" (Text.split "-" t)))
  /\ (forall release_date t created_at,
        url_truthy release_date = false ->
        t <> "" ->
        get_release_year release_date (Some t) created_at
        = Text.int_literal (hd "" (Text.split "-" t)))
  /\ (forall release_date display_date t,
        url_truthy release_date = false ->
        url_truthy display_date = false ->
        t <> "" ->
        get_release_year release_date display_date (Some t)
        = Text.int_literal (hd "" (Text.split "-" t)))
  /\ (forall release_date display_date created_at,
        url_truthy release_date = false ->
        url_truthy display_date = false ->
        url_truthy created_at = false ->
        get_release_year release_date display_date created_at = None)
  /\ (forall y rest,
        Text.isdigit y = true ->
        Text.int_literal (hd "" (Text.split "-" (y ++ "-" ++ rest)))
        = (if Text.within_digit_limit (String.length y)
           then Some (Text.digits_value 0 y) else None))
  /\ (forall y,
        Text.isdigit y = true ->
        Text.int_literal (hd "" (Text.split "-" y))
        = (if Text.within_digit_limit (String.length y)
           then Some (Text.digits_value 0 y) else None))
  /\ (forall rest,
        Text.int_literal (hd "" (Text.split "-" ("-" ++ rest))) = None).
Proof.
  unfold get_release_year.
  split; [|split; [|split; [|split; [|split; [|split]]]]].
  - intros t d c Ht. now rewrite (nonempty_truthy t Ht).
  - intros r t c -> Ht. now rewrite (nonempty_truthy t Ht).
  - intros r d t -> -> Ht. now rewrite (nonempty_truthy t Ht).
  - intros r d c -> -> ->. reflexivity.
  - intros y rest Hy. rewrite (year_of_date y rest Hy).
    rewrite (int_literal_is_int y Hy). unfold Text.int. now rewrite Hy.
  - intros y Hy.
    rewrite (split_absent "-" y)
      by (apply contains_char_digits; [reflexivity|now apply isdigit_all_digits]).
    cbn [hd]. rewrite (int_literal_is_int y Hy). unfold Text.int. now rewrite Hy.
  - intros rest. reflexivity.
Qed.

Lemma release_year_by_priority_witness :
  get_release_year (Some "2019-05-01T00:00:00Z") (Some "2021-01-01T00:00:00Z") None
  = Some 2019
  /\ get_release_year None (Some "") (Some "2020") = Some 2020
  /\ get_release_year None (Some "") None = None.
Proof.
  destruct release_year_by_priority as (H1 & _ & H3 & H4 & H5 & H6 & _).
  split; [|split].
  - rewrite (H1 "2019-05-01T00:00:00Z" (Some "2021-01-01T00:00:00Z") None
               ltac:(discriminate)).
    exact (H5 "2019" "05-01T00:00:00Z" eq_refl).
  - rewrite (H3 None (Some "") "2020" eq_refl eq_refl ltac:(discriminate)).
    exact (H6 "2020" eq_refl).
  - apply H4; reflexivity.
Defined.

Lemma split_from_nonempty (sep : string) (s : string) :
  forall k, Text.split_from sep k s <> [].
Proof.
  induction s as [|c s IH]; intros k; cbn [Text.split_from]; [discriminate|].
  destruct k as [|k]; [|apply IH].
  destruct (Text.startswith sep (String c s)); [discriminate|].
  destruct (Text.split_from sep 0 s); discriminate.
Qed.

(** When the separator occurs there are at least two parts. *)
Lemma split_str_two_parts (sep s : string) :
  sep <> "" ->
  Text.contains sep s = true ->
  exists x y l, Text.split_str sep s = x :: y :: l.
Proof.
  intros Hsep. unfold Text.split_str. induction s as [|c s IH].
  - destruct sep; [contradiction|discriminate].
  - cbn [Text.contains Text.split_from]. intros H.
    destruct (Text.startswith sep (String c s)) eqn:Es.
    + pose proof (split_from_nonempty sep s (String.length sep - 1)) as Hn.
      destruct (Text.split_from sep (String.length sep - 1) s) as [|y l];
        [contradiction|]. eauto.
    + cbn [orb] in H. destruct (IH H) as (x & y & l & ->). eauto.
Qed.

Lemma startswith_dash_sep (c : ascii) (a t : string) :
  Text.startswith " - " (String c (a ++ " - " ++ t))
  = Text.startswith " - " (String c (a ++ " -")).
Proof.
  destruct a as [|c1 [|c2 a]]; cbn [append Text.startswith];
    rewrite ?andb_true_r; reflexivity.
Qed.

Lemma split_str_at_first_dash (a t : string) :
  Text.contains " - " (a ++ " -") = false ->
  Text.split_str " - " (a ++ " - " ++ t) = a :: Text.split_str " - " t.
Proof.
  unfold Text.split_str. induction a as [|c a IH]; [reflexivity|].
  intros H. cbn [append Text.contains] in H.
  apply orb_false_iff in H. destruct H as [Hc Ha].
  change (String c a ++ " - " ++ t) with (String c (a ++ " - " ++ t)).
  cbn [Text.split_from]. rewrite startswith_dash_sep, Hc.
  now rewrite (IH Ha).
Qed.

Lemma contains_after (sep a t : string) :
  Text.startswith sep t = true -> Text.contains sep (a ++ t) = true.
Proof.
  intros H. induction a as [|c a IH].
  - destruct t; cbn [append Text.contains]; rewrite H; reflexivity.
  - cbn [append Text.contains]. rewrite IH. apply orb_true_r.
Qed.

(** X13.  The track name taken from a title never fails on the index: a
    title without [" - "] is the name; from ["<artist> - <name>"] the name
    is what follows the first [" - "], and what follows a second [" - "] is
    dropped. *)
Theorem track_name_from_title :
  (forall title, exists name, track_name title = Some name)
  /\ (forall title, Text.contains " - " title = false -> track_name title = Some title)
  /\ (forall artist name,
        Text.contains " - " (artist ++ " -") = false ->
        Text.contains " - " name = false ->
        track_name (artist ++ " - " ++ name) = Some name)
  /\ (forall artist name rest,
        Text.contains " - " (artist ++ " -") = false ->
        Text.contains " - " (name ++ " -") = false ->
        track_name (artist ++ " - " ++ name ++ " - " ++ rest) = Some name).
Proof.
  split; [|split; [|split]].
  - intros title. unfold track_name.
    destruct (Text.contains " - " title) eqn:E; [|eauto].
    destruct (split_str_two_parts " - " title ltac:(discriminate) E)
      as (x & y & l & ->). exists y. reflexivity.
  - intros title H. unfold track_name. now rewrite H.
  - intros artist name Ha Hn. unfold track_name.
    rewrite (contains_after " - " artist (" - " ++ name)) by reflexivity.
    rewrite (split_str_at_first_dash artist name Ha).
    rewrite (split_str_absent _ _ Hn). reflexivity.
  - intros artist name rest Ha Hn. unfold track_name.
    rewrite (contains_after " - " artist (" - " ++ name ++ " - " ++ rest))
      by reflexivity.
    rewrite (split_str_at_first_dash artist (name ++ " - " ++ rest) Ha).
    rewrite (split_str_at_first_dash name rest Hn). reflexivity.
Qed.

Lemma track_name_from_title_witness :
  track_name "Alan Walker - Darkside" = Some "Darkside"
  /\ track_name "Darkside" = Some "Darkside"
  /\ track_name "Alan Walker - Darkside - Remix" = Some "Darkside".
Proof.
  destruct track_name_from_title as (_ & H2 & H3 & H4).
  split; [apply (H3 "Alan Walker" "Darkside"); reflexivity|].
  split; [apply (H2 "Darkside"); reflexivity|].
  apply (H4 "Alan Walker" "Darkside" "Remix"); reflexivity.
Defined.

Lemma startswith_split (p s : string) :
  Text.startswith p s = true -> s = p ++ Text.drop (String.length p) s.
Proof.
  revert s. induction p as [|a p IH]; intros s H; [reflexivity|].
  destruct s as [|b s]; [discriminate|].
  cbn [Text.startswith] in H. apply andb_true_iff in H. destruct H as [Hab Hp].
  apply Ascii.eqb_eq in Hab. subst b.
  cbn [String.length Text.drop append]. f_equal. exact (IH s Hp).
Qed.

Lemma join_cons (sep p : string) (ps : list string) :
  ps <> [] -> Text.join sep (p :: ps) = p ++ sep ++ Text.join sep ps.
Proof. destruct ps; [contradiction|reflexivity]. Qed.

Lemma join_head_char (sep : string) (c : ascii) (p : string) (ps : list string) :
  Text.join sep (String c p :: ps) = String c (Text.join sep (p :: ps)).
Proof. destruct ps; reflexivity. Qed.

(** Joining the parts of a split gives the text back. *)
Lemma join_split_from (a : ascii) (sep' s : string) :
  forall k,
    Text.join (String a sep') (Text.split_from (String a sep') k s) = Text.drop k s.
Proof.
  induction s as [|c s IH]; intros k.
  - destruct k; reflexivity.
  - cbn [Text.split_from]. destruct k as [|k]; [|exact (IH k)].
    cbn [Text.drop].
    destruct (Text.startswith (String a sep') (String c s)) eqn:Es.
    + rewrite join_cons by apply split_from_nonempty.
      rewrite IH. cbn [String.length Nat.sub]. rewrite Nat.sub_0_r.
      cbn [Text.startswith] in Es. apply andb_true_iff in Es.
      destruct Es as [Hac Hs]. apply Ascii.eqb_eq in Hac. subst c.
      cbn [append]. f_equal. symmetry. exact (startswith_split sep' s Hs).
    + specialize (IH 0%nat). cbn [Text.drop] in IH.
      destruct (Text.split_from (String a sep') 0 s) as [|p ps] eqn:E.
      * exfalso. exact (split_from_nonempty _ _ _ E).
      * rewrite join_head_char, IH. reflexivity.
Qed.

(** X14.  [artists_split] loses nothing and always names someone: joining
    the names with [", "] gives back the text in which [" & "], [" and "]
    and [" x "] were replaced by [", "]; the list is never empty, and a text
    with none of the four separators is one artist. *)
Theorem artists_split_round_trip (artists_string : string) :
  Text.join ", " (artists_split artists_string)
  = Text.replace " x " ", "
      (Text.replace " and " ", " (Text.replace " & " ", " artists_string))
  /\ (exists first others, artists_split artists_string = first :: others)
  /\ (Text.contains " & " artists_string = false ->
      Text.contains " and " artists_string = false ->
      Text.contains " x " artists_string = false ->
      Text.contains ", " artists_string = false ->
      artists_split artists_string = [artists_string]).
Proof.
  unfold artists_split, Text.split_str. split; [|split].
  - rewrite join_split_from. reflexivity.
  - destruct (Text.split_from ", " 0 _) as [|p ps] eqn:E.
    + exfalso. exact (split_from_nonempty _ _ _ E).
    + eauto.
  - intros H1 H2 H3 H4.
    rewrite (replace_absent _ _ _ H1), (replace_absent _ _ _ H2),
      (replace_absent _ _ _ H3).
    exact (split_str_absent _ _ H4).
Qed.

Lemma artists_split_round_trip_witness :
  artists_split "Alan Walker" = ["Alan Walker"].
Proof.
  destruct (artists_split_round_trip "Alan Walker") as (_ & _ & H).
  apply H; reflexivity.
Defined.

Example artists_split_three :
  artists_split "Marshmello & Anne-Marie x Khalid" = ["Marshmello"; "Anne-Marie"; "Khalid"].
Proof. reflexivity. Qed.

(** * The API client *)

Lemma chunks_concat_from {A : Type} (l : list A) (m : nat) :
  forall s,
    (length l <= (s + m) * 50)%nat ->
    concat (map (fun k => firstn 50 (skipn (k * 50) l)) (seq s m))
    = skipn (s * 50) l.
Proof.
  induction m as [|m IH]; intros s Hl.
  - cbn [seq map concat]. symmetry. apply skipn_all2. lia.
  - cbn [seq map concat]. rewrite IH by lia.
    replace (Datatypes.S s * 50)%nat with (50 + s * 50)%nat by lia.
    rewrite <- skipn_skipn. apply firstn_skipn.
Qed.

Lemma chunk_count_covers (n : nat) : (n <= (n + 49) / 50 * 50)%nat.
Proof.
  pose proof (Nat.div_mod_eq (n + 49) 50) as E.
  pose proof (Nat.mod_upper_bound (n + 49) 50 ltac:(lia)) as U. lia.
Qed.

Lemma chunk_index_inside (n k : nat) : (k < (n + 49) / 50)%nat -> (k * 50 < n)%nat.
Proof.
  intros Hk. pose proof (Nat.div_mod_eq (n + 49) 50) as E.
  pose proof (Nat.mod_upper_bound (n + 49) 50 ltac:(lia)) as U. nia.
Qed.

Lemma tracks_to_get_chunked_eq {A : Type} (l : list A) :
  tracks_to_get_chunked l
  = map (fun k => firstn 50 (skipn (k * 50) l)) (seq 0 ((length l + 49) / 50)).
Proof.
  unfold tracks_to_get_chunked, range_from_zero, slice. rewrite map_map.
  replace (length l + 50 - 1)%nat with (length l + 49)%nat by lia.
  apply map_ext. intros k. now replace (k * 50 + 50 - k * 50)%nat with 50%nat by lia.
Qed.

(** X15.  The identifiers looked up by [get_tracks_from_tracklist] are cut
    into batches that, put end to end, are the identifiers in their order,
    none lost and none repeated; every batch holds between 1 and 50 of
    them, and there are as many batches as the count divided by 50, rounded
    up. *)
Theorem tracks_to_get_chunked_covers {A : Type} (tracks_to_get : list A) :
  concat (tracks_to_get_chunked tracks_to_get) = tracks_to_get
  /\ Forall (fun chunk => (1 <= length chunk <= 50)%nat)
            (tracks_to_get_chunked tracks_to_get)
  /\ length (tracks_to_get_chunked tracks_to_get)
     = ((length tracks_to_get + 49) / 50)%nat.
Proof.
  rewrite tracks_to_get_chunked_eq. split; [|split].
  - rewrite (chunks_concat_from tracks_to_get _ 0%nat).
    + reflexivity.
    + cbn [Nat.add]. apply chunk_count_covers.
  - apply Forall_forall. intros chunk Hc. apply in_map_iff in Hc.
    destruct Hc as (k & <- & Hk). apply in_seq in Hk.
    rewrite length_firstn, length_skipn.
    pose proof (chunk_index_inside (length tracks_to_get) k ltac:(lia)). lia.
  - now rewrite length_map, length_seq.
Qed.

Example chunked_120 :
  map (@length nat) (tracks_to_get_chunked (seq 0 120)) = [50; 50; 20]%nat.
Proof. reflexivity. Qed.

Example chunked_empty : tracks_to_get_chunked (@nil nat) = [].
Proof. reflexivity. Qed.

Lemma _get_counts_one (S : session) (u : string) (params : list (string * pyval)) (n : nat) :
  snd (_get S u params n) = Datatypes.S n.
Proof.
  unfold _get.
  destruct (if is_absolute u then http_get S n u [] else http_get S n (api_base ++ u) params)
    as [r|e]; [|reflexivity].
  destruct ((status_code r =? 200) || (status_code r =? 201) || (status_code r =? 202)).
  - destruct (json_body r); reflexivity.
  - destruct (status_code r =? 403); reflexivity.
Qed.

Lemma paginate_bounds (S : session) (pages : nat) :
  forall page_url params items n,
    (n <= snd (paginate S pages page_url params items n) <= n + pages)%nat
    /\ forall l,
         fst (paginate S pages page_url params items n) = Returned l ->
         Forall (fun i => has_id i = true) items ->
         Forall (fun i => has_id i = true) l.
Proof.
  induction pages as [|pages IH]; intros page_url params items n.
  - cbn [paginate fst snd]. split; [lia|]. intros l [= <-] H. exact H.
  - cbn [paginate]. destruct page_url as [| | |u| |];
      try (cbn [fst snd]; split; [lia|discriminate]).
    pose proof (_get_counts_one S u (if is_absolute u then [] else params) n) as Hn.
    destruct (_get S u (if is_absolute u then [] else params) n) as [[resp|e] n'];
      cbn [snd] in Hn; subst n'; [|cbn [fst snd]; split; [lia|discriminate]].
    match goal with
    | |- context [iterate ?c] => destruct (iterate c) as [found|]
    end; [|cbn [fst snd]; split; [lia|discriminate]].
    assert (Hf : Forall (fun i => has_id i = true) items ->
                 Forall (fun i => has_id i = true) (items ++ filter has_id found)%list).
    { intros H. apply Forall_app. split; [exact H|].
      apply Forall_forall. intros i Hi. apply filter_In in Hi. tauto. }
    match goal with
    | |- context [json_truthy ?h] => destruct (json_truthy h)
    end.
    + match goal with
      | |- context [paginate S pages ?a ?b ?c ?d] =>
          destruct (IH a b c d) as [Hb Hi]
      end.
      split; [lia|]. intros l Hl H. exact (Hi l Hl (Hf H)).
    + cbn [fst snd]. split; [lia|]. intros l [= <-] H. exact (Hf H).
Qed.

(** X16.  [_get_collection_paginated] makes at most [max_pages] requests,
    whatever the server answers, and every item it returns is a dictionary
    with an [id]. *)
Theorem paginated_requests_bounded
    (S : session) (u : string) (params : list (string * pyval))
    (max_pages n : nat) :
  (n <= snd (_get_collection_paginated S u params max_pages n) <= n + max_pages)%nat
  /\ forall items,
       fst (_get_collection_paginated S u params max_pages n) = Returned items ->
       Forall (fun i => has_id i = true) items.
Proof.
  unfold _get_collection_paginated.
  destruct (paginate_bounds S max_pages (JStr u) params [] n) as [Hb Hi].
  split; [exact Hb|]. intros items H. exact (Hi items H (Forall_nil _)).
Qed.

Lemma paginated_requests_bounded_witness :
  Forall (fun i => has_id i = true) [JDict [("id", JNum 1)]; JDict [("id", JNum 2)]].
Proof.
  destruct (paginated_requests_bounded two_page_session "users/7/tracks"
              [("limit", PyInt 200)] 50 0) as [_ H].
  apply H. reflexivity.
Defined.

(** X17.  A first page that names a next page by an absolute URL is
    followed with a request for that URL, without the query parameters, and
    the items of both pages are returned in order; with [max_pages] 1 the
    call stops after the first page and returns its items only, and when
    the request for the second page fails the call raises and the items of
    the first page are lost. *)
Theorem paginated_follows_next_href
    (S : session) (u : string) (params : list (string * pyval)) (n : nat)
    (resp1 : json) (l1 : list json) (h : string) :
  _get S u (if is_absolute u then [] else params) n = (Returned resp1, Datatypes.S n) ->
  iterate (page_collection resp1) = Some l1 ->
  page_next_href resp1 = JStr h ->
  is_absolute h = true ->
  _get_collection_paginated S u params 1 n
  = (Returned (filter has_id l1), Datatypes.S n)
  /\ (forall max_pages resp2 l2,
        _get S h [] (Datatypes.S n) = (Returned resp2, Datatypes.S (Datatypes.S n)) ->
        iterate (page_collection resp2) = Some l2 ->
        json_truthy (page_next_href resp2) = false ->
        _get_collection_paginated S u params (Datatypes.S (Datatypes.S max_pages)) n
        = (Returned (filter has_id l1 ++ filter has_id l2)%list,
           Datatypes.S (Datatypes.S n)))
  /\ (forall max_pages e n2,
        _get S h [] (Datatypes.S n) = (Raised e, n2) ->
        _get_collection_paginated S u params (Datatypes.S (Datatypes.S max_pages)) n
        = (Raised e, n2)).
Proof.
  intros H1 Hc Hn Hh.
  assert (Ht : json_truthy (JStr h) = true).
  { destruct h; [discriminate Hh|reflexivity]. }
  unfold _get_collection_paginated. split; [|split].
  - cbn [paginate]. rewrite H1. cbv zeta. rewrite Hc, Hn, Ht. reflexivity.
  - intros max_pages resp2 l2 H2 Hc2 Hn2.
    cbn [paginate]. rewrite H1. cbv zeta. rewrite Hc, Hn, Ht, Hh, H2.
    rewrite Hc2, Hn2. reflexivity.
  - intros max_pages e n2 H2.
    cbn [paginate]. rewrite H1. cbv zeta. rewrite Hc, Hn, Ht, Hh, H2.
    reflexivity.
Qed.

Lemma paginated_follows_next_href_witness :
  _get_collection_paginated two_page_session "users/7/tracks" [("limit", PyInt 200)] 1 0
  = (Returned [JDict [("id", JNum 1)]], 1%nat)
  /\ _get_collection_paginated two_page_session "users/7/tracks" [("limit", PyInt 200)] 50 0
     = (Returned [JDict [("id", JNum 1)]; JDict [("id", JNum 2)]], 2%nat).
Proof.
  destruct (paginated_follows_next_href two_page_session "users/7/tracks"
              [("limit", PyInt 200)] 0 page_one
              [JDict [("id", JNum 1)]; JDict [("title", JStr "x")]]
              "https://api-v2.soundcloud.com/users/7/tracks?offset=1"
              eq_refl eq_refl eq_refl eq_refl) as (H1 & H2 & _).
  split; [exact H1|].
  exact (H2 48%nat page_two [JDict [("id", JNum 2)]] eq_refl eq_refl eq_refl).
Defined.

(** ** The preview stream *)

Lemma preview_loop_world (E : env) (auth : string) (items : list preview_item) :
  forall best_url w, snd (preview_loop E auth items best_url w) = w.
Proof.
  induction items as [|[u protocol|e] items IH]; intros best_url w;
    cbn [preview_loop]; try reflexivity.
  destruct (pyval_truthy u); [|apply IH].
  destruct (is_text protocol "progressive").
  - unfold try_except, bind.
    pose proof (get_track_stream_link_world E (as_url u) auth w) as Hw.
    destruct (get_track_stream_link E (as_url u) auth w) as [[v|e] w1];
      cbn [snd] in Hw; subst w1; [reflexivity|apply IH].
  - destruct (is_text protocol "hls" && negb (pyval_truthy best_url)); apply IH.
Qed.

(** X18.  [get_preview_stream_url] never raises: whatever the API answers
    and however the track description is shaped, it returns (a URL or
    [None]); it touches neither disk nor tool and prints at most one
    line. *)
Theorem preview_never_raises
    (E : env) (track : result preview_data) (track_authorization : option string)
    (w : world) :
  exists v w',
    get_preview_stream_url E track track_authorization w = (Returned v, w')
    /\ files w' = files w
    /\ tool_launches w' = tool_launches w
    /\ fetched w' = fetched w
    /\ temp_names w' = temp_names w
    /\ (stdout w' = stdout w \/ exists line, stdout w' = (stdout w ++ [line])%list).
Proof.
  assert (Hraise : forall e,
            exists v w',
              bind (print ("[SoundCloud] Error getting preview stream: " ++ exn_str e))
                   (fun _ => ret PyNone) w = (Returned v, w')
              /\ files w' = files w /\ tool_launches w' = tool_launches w
              /\ fetched w' = fetched w /\ temp_names w' = temp_names w
              /\ (stdout w' = stdout w
                  \/ exists line, stdout w' = (stdout w ++ [line])%list)).
  { intros e. eexists. eexists. split; [reflexivity|]. run_glue.
    repeat (split; [reflexivity|]). right. eexists. reflexivity. }
  assert (Hret : forall v,
            exists v' w',
              (Returned v, w) = (@Returned pyval v', w')
              /\ files w' = files w /\ tool_launches w' = tool_launches w
              /\ fetched w' = fetched w /\ temp_names w' = temp_names w
              /\ (stdout w' = stdout w
                  \/ exists line, stdout w' = (stdout w ++ [line])%list)).
  { intros v. exists v, w. repeat (split; [reflexivity|]). now left. }
  unfold get_preview_stream_url. unfold try_except at 1.
  destruct track as [td|e]; [|apply Hraise].
  destruct (pv_streamable td); [|apply Hret]. cbn [negb].
  destruct (pv_transcodings td) as [[|it items]|e]; [apply Hret| |apply Hraise].
  unfold bind at 1.
  pose proof (preview_loop_world E (preview_auth td track_authorization)
                (it :: items) PyNone w) as Hw.
  destruct (preview_loop E (preview_auth td track_authorization) (it :: items) PyNone w)
    as [[[v|best_url]|e] w1]; cbn [snd] in Hw; subst w1; try apply Hret; try apply Hraise.
  destruct (pyval_truthy best_url); [|apply Hret].
  unfold try_except.
  pose proof (get_track_stream_link_world E (as_url best_url)
                (preview_auth td track_authorization) w) as Hw.
  destruct (get_track_stream_link E (as_url best_url)
              (preview_auth td track_authorization) w) as [[v|e] w1];
    cbn [snd] in Hw; subst w1; apply Hret.
Qed.

Lemma preview_loop_skips (E : env) (auth : string) (pre rest : list preview_item)
    (w : world) :
  forallb not_progressive pre = true ->
  forall best_url,
    exists best_url',
      preview_loop E auth (pre ++ rest)%list best_url w
      = preview_loop E auth rest best_url' w.
Proof.
  induction pre as [|[u protocol|e] pre IH]; intros H best_url;
    cbn [forallb not_progressive] in H.
  - eauto.
  - apply andb_true_iff in H. destruct H as [Hp Hpre].
    apply negb_true_iff in Hp. cbn [app preview_loop]. rewrite Hp.
    destruct (pyval_truthy u); [|apply (IH Hpre)].
    destruct (is_text protocol "hls" && negb (pyval_truthy best_url));
      apply (IH Hpre).
  - discriminate H.
Qed.

(** X19.  The preview prefers a progressive stream: when the first
    progressive transcoding has a URL that resolves, the resolved URL is
    returned, also when HLS transcodings are listed before it, and nothing
    is printed. *)
Theorem preview_prefers_progressive
    (E : env) (td : preview_data) (track_authorization : option string) (w : world)
    (pre post : list preview_item) (u : string) (resolved_url : pyval) :
  pv_streamable td = true ->
  pv_transcodings td
  = Returned (pre ++ Item (PyStr u) (PyStr "progressive") :: post)%list ->
  forallb not_progressive pre = true ->
  u <> "" ->
  get_track_stream_link E (Some u) (preview_auth td track_authorization) w
  = (Returned resolved_url, w) ->
  get_preview_stream_url E (Returned td) track_authorization w
  = (Returned resolved_url, w).
Proof.
  intros Hs Ht Hpre Hu Hres. unfold get_preview_stream_url, try_except at 1.
  rewrite Hs, Ht. cbn [negb].
  destruct (pre ++ Item (PyStr u) (PyStr "progressive") :: post)%list
    as [|it items] eqn:El; [destruct pre; discriminate El|].
  rewrite <- El. unfold bind at 1.
  destruct (preview_loop_skips E (preview_auth td track_authorization) pre
              (Item (PyStr u) (PyStr "progressive") :: post) w Hpre PyNone)
    as [best_url' ->].
  cbn [preview_loop pyval_truthy is_text as_url].
  apply String.eqb_neq in Hu. rewrite Hu.
  replace (String.eqb "progressive" "progressive") with true by reflexivity.
  cbn [negb]. unfold try_except, bind at 1. rewrite Hres. reflexivity.
Qed.

Lemma preview_prefers_progressive_witness :
  get_preview_stream_url (sample_env true failing_run) (Returned preview_track) None
    empty_world
  = (Returned (PyStr "https://cf-hls-media.sndcdn.com/playlist.m3u8"), empty_world).
Proof.
  apply (preview_prefers_progressive (sample_env true failing_run) preview_track None
           empty_world
           [Item (PyStr "https://api-v2.soundcloud.com/media/x/stream/hls") (PyStr "hls")]
           []
           "https://api-v2.soundcloud.com/media/x/stream/progressive"
           (PyStr "https://cf-hls-media.sndcdn.com/playlist.m3u8"));
    try reflexivity. discriminate.
Defined.

Lemma preview_loop_no_candidate (E : env) (auth : string) (pre rest : list preview_item)
    (w : world) :
  forallb no_candidate pre = true ->
  preview_loop E auth (pre ++ rest)%list PyNone w = preview_loop E auth rest PyNone w.
Proof.
  induction pre as [|[u protocol|e] pre IH]; intros H; cbn [forallb no_candidate] in H.
  - reflexivity.
  - apply andb_true_iff in H. destruct H as [Hc Hpre].
    apply andb_true_iff in Hc. destruct Hc as [Hp Hh].
    apply negb_true_iff in Hp, Hh. cbn [app preview_loop]. rewrite Hp.
    destruct (pyval_truthy u); [|apply (IH Hpre)].
    cbn [andb] in Hh. rewrite Hh. cbn [andb]. apply (IH Hpre).
  - discriminate H.
Qed.

Lemma preview_loop_keeps (E : env) (auth : string) (post : list preview_item)
    (best_url : pyval) (w : world) :
  forallb not_progressive post = true ->
  pyval_truthy best_url = true ->
  preview_loop E auth post best_url w = (Returned (Fallthrough best_url), w).
Proof.
  intros H Hb. induction post as [|[u protocol|e] post IH];
    cbn [forallb not_progressive] in H.
  - reflexivity.
  - apply andb_true_iff in H. destruct H as [Hp Hpost].
    apply negb_true_iff in Hp. cbn [preview_loop]. rewrite Hp, Hb.
    cbn [negb]. rewrite andb_false_r.
    destruct (pyval_truthy u); apply (IH Hpost).
  - discriminate H.
Qed.

(** X20.  Without a progressive transcoding the preview falls back to the
    first HLS transcoding that has a URL, and to that one only: its resolved
    URL is returned, and when resolving it fails the result is [None], with
    nothing printed, even if a later HLS transcoding would resolve. *)
Theorem preview_falls_back_to_first_hls
    (E : env) (td : preview_data) (track_authorization : option string) (w : world)
    (pre post : list preview_item) (u : pyval) :
  pv_streamable td = true ->
  pv_transcodings td = Returned (pre ++ Item u (PyStr "hls") :: post)%list ->
  forallb no_candidate pre = true ->
  forallb not_progressive post = true ->
  pyval_truthy u = true ->
  (forall v,
     get_track_stream_link E (as_url u) (preview_auth td track_authorization) w
     = (Returned v, w) ->
     get_preview_stream_url E (Returned td) track_authorization w = (Returned v, w))
  /\ (forall e,
        get_track_stream_link E (as_url u) (preview_auth td track_authorization) w
        = (Raised e, w) ->
        get_preview_stream_url E (Returned td) track_authorization w
        = (Returned PyNone, w)).
Proof.
  intros Hs Ht Hpre Hpost Hu.
  assert (Hloop : preview_loop E (preview_auth td track_authorization)
                    (pre ++ Item u (PyStr "hls") :: post)%list PyNone w
                  = (Returned (Fallthrough u), w)).
  { rewrite (preview_loop_no_candidate _ _ _ _ _ Hpre).
    cbn [preview_loop is_text]. rewrite Hu.
    replace (String.eqb "hls" "progressive") with false by reflexivity.
    replace (String.eqb "hls" "hls") with true by reflexivity.
    cbn [pyval_truthy negb andb].
    exact (preview_loop_keeps _ _ _ _ _ Hpost Hu). }
  assert (Hne : exists it items,
             (pre ++ Item u (PyStr "hls") :: post)%list = it :: items).
  { destruct pre; cbn [app]; eauto. }
  destruct Hne as (it & items & El).
  split; intros x Hx;
    unfold get_preview_stream_url, try_except at 1; rewrite Hs, Ht; cbn [negb];
    rewrite El; rewrite <- El;
    unfold bind at 1; rewrite Hloop, Hu; unfold try_except; rewrite Hx;
    reflexivity.
Qed.

Lemma preview_falls_back_to_first_hls_witness :
  get_preview_stream_url (sample_env true failing_run)
    (Returned {| pv_streamable := true;
                 pv_transcodings :=
                   Returned [Item (PyStr "https://soundcloud.com/not-an-api-url") (PyStr "hls");
                             Item (PyStr "https://api-v2.soundcloud.com/media/x/stream/hls")
                                  (PyStr "hls")];
                 pv_track_authorization := "auth" |})
    None empty_world
  = (Returned PyNone, empty_world).
Proof.
  destruct (preview_falls_back_to_first_hls (sample_env true failing_run)
              {| pv_streamable := true;
                 pv_transcodings :=
                   Returned [Item (PyStr "https://soundcloud.com/not-an-api-url") (PyStr "hls");
                             Item (PyStr "https://api-v2.soundcloud.com/media/x/stream/hls")
                                  (PyStr "hls")];
                 pv_track_authorization := "auth" |}
              None empty_world []
              [Item (PyStr "https://api-v2.soundcloud.com/media/x/stream/hls") (PyStr "hls")]
              (PyStr "https://soundcloud.com/not-an-api-url")
              eq_refl eq_refl eq_refl eq_refl eq_refl) as [_ H].
  apply (H (ModuleError "Invalid stream URL. This track may not be available.")).
  reflexivity.
Defined.

(** * The diagnostics of [get_track_info] *)

Lemma low_quality_error_head (p : string) :
  exists rest, low_quality_error p = String "B" rest.
Proof. unfold low_quality_error. cbn [append]. eauto. Qed.

(** X21.  For a track that is not served from its direct asset, the
    diagnostic tells the failure cases apart: "not available" exactly when
    the track is not streamable, "no transcodings" exactly when it is
    streamable and lists none, "none usable" exactly when it lists some and
    none is retained. *)
Theorem diagnostics_tell_cases_apart
    (members : string -> bool) (td : track_data)
    (redirectUri content_type_header : string) :
  downloadable td && has_downloads_left td = false ->
  (error (get_track_info members td redirectUri content_type_header)
   = Some not_available_error
   <-> streamable td = false)
  /\ (error (get_track_info members td redirectUri content_type_header)
      = Some no_transcodings_error
      <-> streamable td = true /\ transcodings td = [])
  /\ (error (get_track_info members td redirectUri content_type_header)
      = Some none_usable_error
      <-> streamable td = true /\ transcodings td <> []
          /\ available_streams members (transcodings td) = []).
Proof.
  intros Hd. unfold get_track_info. rewrite Hd.
  destruct (streamable td).
  2:{ cbn [error]. repeat split; try discriminate; try reflexivity;
      intros H; destruct H; discriminate. }
  destruct (transcodings td) as [|i ts] eqn:Et.
  { cbn [error]. repeat split; try discriminate; try reflexivity.
    intros (_ & H & _). contradiction. }
  destruct (best_stream members (i :: ts)) as [b|] eqn:Eb.
  - assert (Hne : available_streams members (i :: ts) <> []).
    { intros E. apply best_stream_none in E. congruence. }
    pose proof (best_stream_some members _ b Eb) as [Hin _].
    apply available_unencrypted in Hin. destruct Hin as [Henc _].
    cbn [error]. rewrite Henc.
    destruct (low_quality_error_head (preset b)) as [rest Hl].
    destruct (0 <? quality b); repeat split; try discriminate;
      try (rewrite Hl; discriminate);
      try (intros H; destruct H as (? & ? & ?); try discriminate; contradiction);
      intros H; destruct H; discriminate.
  - apply best_stream_none in Eb. cbn [error].
    repeat split; try discriminate; try reflexivity; try exact Eb.
    intros H; destruct H; discriminate.
Qed.

Lemma diagnostics_tell_cases_apart_witness :
  error (get_track_info known_codec (streaming_track [abr_transcoding]) "" "")
  = Some none_usable_error
  /\ error (get_track_info known_codec (streaming_track []) "" "")
     = Some no_transcodings_error.
Proof.
  split.
  - destruct (diagnostics_tell_cases_apart known_codec
                (streaming_track [abr_transcoding]) "" "" eq_refl) as (_ & _ & H).
    apply H. split; [reflexivity|]. split; [discriminate|reflexivity].
  - destruct (diagnostics_tell_cases_apart known_codec
                (streaming_track []) "" "" eq_refl) as (_ & H & _).
    apply H. split; reflexivity.
Defined.
